(** * Label signatures and sample deduplication of the stackdriver exporter

    A shallow embedding of the sample-processing core of the exporter:
    - [hash]: the streaming FNV-1a accumulator (package [hash]);
    - [sort]: what [sort.Slice] of the Go standard library does to the
      slice of label indices;
    - [dedup]: [collectors/deduplicator.go], the deduplicator whose
      signatures include the sample timestamp;
    - [dedup_project]: the project-labelled deduplicator, whose signatures
      do not;
    - [labels]: the label assembly exercised by
      [collectors/monitoring_collector_flags_test.go] and
      [collectors/system_labels_test.go].

    Go values are modelled as follows.  A [uint64] is a [Z] in
    [0, 2^64) with the wrap-around of the multiplication written out; a
    [string] is a [string] whose characters are its bytes; a slice is a
    [list], read with [!!]; [map[uint64]struct{}] is a [gset Z]; a
    Prometheus counter or gauge is the natural number it holds. *)

From Stdlib Require Import ZArith Ascii String List Sorting.Sorted Sorting.Permutation.
From stdpp Require Import base tactics option list sorting gmap strings.

Local Open Scope Z_scope.

(** ** Go strings *)

(** The byte [s[i]] of a Go string, as the [uint64] the hash folds in. *)
Definition byte_of_ascii (c : ascii) : Z := Z.of_N (N_of_ascii c).

(** [s1 < s2] on Go strings: byte-wise lexicographic comparison, a proper
    prefix being smaller. *)
Definition string_lt (s1 s2 : string) : bool := String.ltb s1 s2.

(** ** Package [hash] *)

Module hash.

(** Modelled from the spec: the file of package [hash] that defines
    [New], [AddByte], [Add], [AddUint64], [SeparatorByte] and the two
    constants is missing; only its test file is present.  The spec
    calls the accumulator an FNV-1a variant with a fixed 64-bit offset
    basis and prime, the test file names the prime [prime64]; the
    values are those of 64-bit FNV-1a. *)
Definition offset64 : Z := 14695981039346656037.
Definition prime64 : Z := 1099511628211.

(** Modelled from the spec: the separator is one fixed byte that
    ordinary label text does not produce (no UTF-8 encoding contains
    the byte [0xFF]). *)
Definition SeparatorByte : Z := 255.

(** 64-bit wrap-around of an unsigned product. *)
Definition wrap64 (x : Z) : Z := x mod 2 ^ 64.

(** Modelled from the spec: [New()] returns the offset basis. *)
Definition New : Z := offset64.

(** Modelled from the spec: [AddByte(state, b)] is
    [(state XOR b) * prime] with 64-bit wrap-around. *)
Definition AddByte (h b : Z) : Z := wrap64 (Z.lxor h b * prime64).

(** Modelled from the spec: [Add(state, s)] folds [AddByte] over the
    bytes of [s] in sequence order. *)
Fixpoint Add (h : Z) (s : string) : Z :=
  match s with
  | EmptyString => h
  | String c s' => Add (AddByte h (byte_of_ascii c)) s'
  end.

(** Modelled from the spec: [AddUint64(state, v)] takes the eight bytes
    of [v] least-significant first, byte [i] being [byte(v >> (8*i))],
    and folds each in with the FNV-1a step. *)
Definition byteAt (v : Z) (i : nat) : Z :=
  Z.land (Z.shiftr v (8 * Z.of_nat i)) 255.

Definition AddUint64 (h v : Z) : Z :=
  fold_left (fun h i => AddByte h (byteAt v i)) (seq 0 8) h.

(** The function the spec warns against: XOR the whole integer once and
    multiply once (the "old implementation" of the test file). *)
Definition xorThenMultiplyOnce (h v : Z) : Z := wrap64 (Z.lxor h v * prime64).

(** The eight bytes of a [uint64], least-significant first, by repeated
    division: the reference the byte-order contract is stated against. *)
Fixpoint littleEndianBytes (n : nat) (v : Z) : list Z :=
  match n with
  | O => []
  | S n' => v mod 256 :: littleEndianBytes n' (v / 256)
  end.

Definition isUint64 (v : Z) : Prop := 0 <= v < 2 ^ 64.

End hash.

(** ** [sort.Slice] of the Go standard library *)

Module sort.

(** One pass of the inner loop of [insertionSort_func]:
    [for j := i; j > a && less(j, j-1); j-- { swap(j, j-1) }].
    [prefix] is the sorted part [data[a:i]] with its LAST element first,
    [x] is [data[i]]; [x] moves left over every element it is less than
    and stops at the first one it is not less than. *)
Fixpoint sink {A : Type} (less : A -> A -> bool) (x : A) (prefix : list A) : list A :=
  match prefix with
  | [] => [x]
  | y :: prefix' => if less x y then y :: sink less x prefix' else x :: y :: prefix'
  end.

(** [insertionSort_func(data, a, b)]: the outer loop
    [for i := a + 1; i < b; i++] over the whole slice. *)
Definition insertionSort_func {A : Type} (less : A -> A -> bool) (data : list A) : list A :=
  rev (fold_left (fun prefix x => sink less x prefix) data []).

(** [sort.Slice] hands the slice to [pdqsort_func] (the sort of Go 1.19
    and later; the repository imports [log/slog] and so builds with Go
    1.21 or later), which sorts a slice of at most [maxInsertion] elements
    by [insertionSort_func] and returns. *)
Definition maxInsertion : nat := 12.

Section Slice.
Context {A : Type}.

(** What [pdqsort_func] does to a longer slice (pivot choice, partition,
    heap sort fall-back) belongs to the Go standard library, not to this
    repository: it is a parameter, known by the documented contract of
    [sort.Slice] ([SliceContract] below). *)
Variable pdq_long : (A -> A -> bool) -> list A -> list A.

(** [sort.Slice(x, less)], as the permutation of the elements it leaves
    in [x]; [less] is given on elements, [less(i, j)] of the source being
    [less x[i] x[j]]. *)
Definition Slice (less : A -> A -> bool) (x : list A) : list A :=
  if decide (length x <= maxInsertion)%nat then insertionSort_func less x
  else pdq_long less x.

End Slice.

(** The requirement [sort.Slice] puts on [less] (a strict weak ordering:
    irreflexive, transitive, with transitive incomparability). *)
Record StrictWeakOrder {A : Type} (less : A -> A -> bool) : Prop := {
  less_irrefl : forall a, less a a = false;
  less_trans : forall a b c, less a b = true -> less b c = true -> less a c = true;
  less_cotrans : forall a b c, less a c = true -> less a b = true \/ less b c = true
}.

(** The documented contract of [sort.Slice]: the slice is permuted (the
    sort only swaps elements) and ends up sorted, no element being less
    than an earlier one.  Nothing is promised about elements that compare
    equal: "The sort is not guaranteed to be stable". *)
Record SliceContract {A : Type} (pdq_long : (A -> A -> bool) -> list A -> list A) : Prop := {
  pdq_permutes : forall less l, pdq_long less l ≡ₚ l;
  pdq_sorts : forall less l, StrictWeakOrder less ->
    StronglySorted (fun a b => less b a = false) (pdq_long less l)
}.

(** A sort that meets the contract and is not stable: insertion sort of
    the reversed slice. *)
Definition reversingSort {A : Type} (less : A -> A -> bool) (l : list A) : list A :=
  insertionSort_func less (rev l).

End sort.

(** ** The signature of a sample (both deduplicators) *)

(** The struct both deduplicator files declare; the mutex and the logger
    carry no state of interest. *)
Record MetricDeduplicator : Type := mkMetricDeduplicator {
  sentSignatures : gset Z;
  duplicatesTotal : nat;
  checksTotal : nat;
  uniqueMetricsGauge : nat
}.

(** [labelKeys[indices[i]]] inside the [less] closure.  The closure only
    sees elements of [indices], all below [len(labelKeys)]; the default
    is never read there. *)
Definition keyAt (labelKeys : list string) (idx : nat) : string :=
  default EmptyString (labelKeys !! idx).

(** [func(i, j int) bool { return labelKeys[indices[i]] < labelKeys[indices[j]] }] *)
Definition lessByKey (labelKeys : list string) (a b : nat) : bool :=
  string_lt (keyAt labelKeys a) (keyAt labelKeys b).

Section Signature.
Variable pdq_long : (nat -> nat -> bool) -> list nat -> list nat.

(** [indices] after [sort.Slice]: [0, 1, ..., len(labelKeys)-1] sorted by
    label key. *)
Definition sortedIndices (labelKeys : list string) : list nat :=
  sort.Slice pdq_long (lessByKey labelKeys) (seq 0 (length labelKeys)).

(** The body of [for _, idx := range indices].  [labelKeys[idx]] panics
    out of range ([None]); the value is folded only [if idx <
    len(labelValues)]. *)
Definition hashLabel (labelKeys labelValues : list string) (h : Z) (idx : nat) : option Z :=
  key ← labelKeys !! idx;
  let h := hash.Add h key in
  let h := hash.AddByte h hash.SeparatorByte in
  let h := match labelValues !! idx with
           | Some value => hash.Add h value
           | None => h
           end in
  Some (hash.AddByte h hash.SeparatorByte).

Fixpoint hashSortedLabels (labelKeys labelValues : list string) (h : Z) (indices : list nat)
  : option Z :=
  match indices with
  | [] => Some h
  | idx :: indices' =>
      h' ← hashLabel labelKeys labelValues h idx;
      hashSortedLabels labelKeys labelValues h' indices'
  end.

End Signature.

(** [uint64(tsNano)]: the conversion of the [int64] that
    [ts.UnixNano()] returns. *)
Definition uint64_of_int64 (tsNano : Z) : Z := tsNano mod 2 ^ 64.

(** ** [collectors/deduplicator.go]: signatures with the timestamp *)

Module dedup.

(** [NewMetricDeduplicator]: an empty set, two fresh counters and a fresh
    gauge. *)
Definition NewMetricDeduplicator : MetricDeduplicator :=
  mkMetricDeduplicator ∅ 0 0 0.

Section WithSort.
Variable pdq_long : (nat -> nat -> bool) -> list nat -> list nat.

(** [hashLabelsTimestamp]; [ts] is the instant as [ts.UnixNano()] reads
    it. *)
Definition hashLabelsTimestamp (fqName : string) (labelKeys labelValues : list string)
    (ts : Z) : option Z :=
  let h := hash.New in
  let h := hash.Add h fqName in
  let h := hash.AddByte h hash.SeparatorByte in
  h ← (if decide (0 < length labelKeys)%nat
       then hashSortedLabels labelKeys labelValues h (sortedIndices pdq_long labelKeys)
       else Some h);
  let tsNano := ts in
  let h := hash.AddUint64 h (uint64_of_int64 tsNano) in
  Some h.

(** [CheckAndMark]: [None] is a panic of the signature computation, else
    the returned flag and the state the call leaves. *)
Definition CheckAndMark (d : MetricDeduplicator) (name : string)
    (labelKeys labelValues : list string) (ts : Z) : option (bool * MetricDeduplicator) :=
  let checks := S (checksTotal d) in
  signature ← hashLabelsTimestamp name labelKeys labelValues ts;
  if decide (signature ∈ sentSignatures d)
  then Some (true,
             mkMetricDeduplicator (sentSignatures d) (S (duplicatesTotal d)) checks
               (uniqueMetricsGauge d))
  else let sent := {[signature]} ∪ sentSignatures d in
       Some (false,
             mkMetricDeduplicator sent (duplicatesTotal d) checks (size sent)).

(** [RevertMark] *)
Definition RevertMark (d : MetricDeduplicator) (fqName : string)
    (labelKeys labelValues : list string) (ts : Z) : option MetricDeduplicator :=
  signature ← hashLabelsTimestamp fqName labelKeys labelValues ts;
  let sent := sentSignatures d ∖ {[signature]} in
  Some (mkMetricDeduplicator sent (duplicatesTotal d) (checksTotal d) (size sent)).

End WithSort.

(** [Reset] *)
Definition Reset (d : MetricDeduplicator) : MetricDeduplicator :=
  mkMetricDeduplicator ∅ (duplicatesTotal d) (checksTotal d) 0.

(** One call on the deduplicator, and a run of calls from a state; the
    run stops at the first panic. *)
Inductive call : Type :=
| CallCheckAndMark (name : string) (labelKeys labelValues : list string) (ts : Z)
| CallRevertMark (fqName : string) (labelKeys labelValues : list string) (ts : Z)
| CallReset.

Definition step (pdq_long : (nat -> nat -> bool) -> list nat -> list nat)
    (d : MetricDeduplicator) (c : call) : option MetricDeduplicator :=
  match c with
  | CallCheckAndMark name ks vs ts => snd <$> CheckAndMark pdq_long d name ks vs ts
  | CallRevertMark name ks vs ts => RevertMark pdq_long d name ks vs ts
  | CallReset => Some (Reset d)
  end.

Fixpoint run (pdq_long : (nat -> nat -> bool) -> list nat -> list nat)
    (d : MetricDeduplicator) (calls : list call) : option MetricDeduplicator :=
  match calls with
  | [] => Some d
  | c :: calls' => d' ← step pdq_long d c; run pdq_long d' calls'
  end.

(** [n] calls of [CheckAndMark] with the same arguments: the flags
    returned, in order, and the final state. *)
Fixpoint repeatCheckAndMark (pdq_long : (nat -> nat -> bool) -> list nat -> list nat)
    (n : nat) (d : MetricDeduplicator) (name : string) (labelKeys labelValues : list string)
    (ts : Z) : option (list bool * MetricDeduplicator) :=
  match n with
  | O => Some ([], d)
  | S n' =>
      r ← CheckAndMark pdq_long d name labelKeys labelValues ts;
      rs ← repeatCheckAndMark pdq_long n' r.2 name labelKeys labelValues ts;
      Some (r.1 :: rs.1, rs.2)
  end.

End dedup.

(** ** The project-labelled deduplicator: signatures without the timestamp *)

Module dedup_project.

(** [NewMetricDeduplicator(logger, projectID)]: the project only labels
    the exported counters. *)
Definition NewMetricDeduplicator (projectID : string) : MetricDeduplicator :=
  mkMetricDeduplicator ∅ 0 0 0.

Section WithSort.
Variable pdq_long : (nat -> nat -> bool) -> list nat -> list nat.

(** [hashLabels] *)
Definition hashLabels (fqName : string) (labelKeys labelValues : list string) : option Z :=
  let h := hash.New in
  let h := hash.Add h fqName in
  let h := hash.AddByte h hash.SeparatorByte in
  if decide (0 < length labelKeys)%nat
  then hashSortedLabels labelKeys labelValues h (sortedIndices pdq_long labelKeys)
  else Some h.

(** [CheckAndMark] *)
Definition CheckAndMark (d : MetricDeduplicator) (name : string)
    (labelKeys labelValues : list string) : option (bool * MetricDeduplicator) :=
  let checks := S (checksTotal d) in
  signature ← hashLabels name labelKeys labelValues;
  if decide (signature ∈ sentSignatures d)
  then Some (true,
             mkMetricDeduplicator (sentSignatures d) (S (duplicatesTotal d)) checks
               (uniqueMetricsGauge d))
  else let sent := {[signature]} ∪ sentSignatures d in
       Some (false,
             mkMetricDeduplicator sent (duplicatesTotal d) checks (size sent)).

(** [RevertMark]: the parameter [ts] is declared and not used. *)
Definition RevertMark (d : MetricDeduplicator) (fqName : string)
    (labelKeys labelValues : list string) (ts : Z) : option MetricDeduplicator :=
  signature ← hashLabels fqName labelKeys labelValues;
  let sent := sentSignatures d ∖ {[signature]} in
  Some (mkMetricDeduplicator sent (duplicatesTotal d) (checksTotal d) (size sent)).

End WithSort.

(** [Reset] *)
Definition Reset (d : MetricDeduplicator) : MetricDeduplicator :=
  mkMetricDeduplicator ∅ (duplicatesTotal d) (checksTotal d) 0.

End dedup_project.

(** ** Label assembly *)

Module labels.

(** The generic tree a structured payload decodes into. *)
#[local] Unset Elimination Schemes.
Inductive json : Type :=
| JNull
| JBool (b : bool)
| JNumber (text : string)
| JString (s : string)
| JArray (items : list json)
| JObject (members : list (string * json)).
#[local] Set Elimination Schemes.

(** Modelled from the spec: [findKeyIndex(keys, key)], missing with the
    collector; a linear scan that returns the first matching index or a
    not-found sentinel ([None]); comparison is case-sensitive and the
    empty key is a key like any other. *)
Fixpoint findKeyIndex (keys : list string) (key : string) : option nat :=
  match keys with
  | [] => None
  | k :: keys' => if String.eqb k key then Some O else S <$> findKeyIndex keys' key
  end.

(** Modelled from the spec: [keyExists(labelKeys, key)], the membership
    check the tests call. *)
Definition keyExists (labelKeys : list string) (key : string) : bool :=
  match findKeyIndex labelKeys key with
  | Some _ => true
  | None => false
  end.

(** The label set: [labelKeys] and [labelValues], two parallel slices. *)
Definition labelSet : Type := list string * list string.

(** [if !collector.keyExists(labelKeys, key) { labelKeys = append(labelKeys,
    key); labelValues = append(labelValues, value) }] *)
Definition appendIfAbsent (ls : labelSet) (kv : string * string) : labelSet :=
  if keyExists ls.1 kv.1 then ls else (ls.1 ++ [kv.1], ls.2 ++ [kv.2]).

(** [for key, value := range m { ... }]: [m] lists the entries of the Go
    map in the order the loop visits them. *)
Definition addLabels (m : list (string * string)) (ls : labelSet) : labelSet :=
  fold_left appendIfAbsent m ls.

(** The value of a label in a label set: the value at the first index of
    the key. *)
Definition labelValue (ls : labelSet) (key : string) : option string :=
  i ← findKeyIndex ls.1 key; ls.2 !! i.

Section WithDecoder.

(** Decoding the raw payload is the work of the JSON library, not of
    this repository: [None] when the text does not decode (empty or
    unparsable), else the decoded tree. *)
Variable jsonUnmarshal : string -> option json.

(** The string-valued pairs of a decoded payload, in document order.  Any
    root that is not an object gives the empty result. *)
Definition systemLabelPairs (payload : option json) : list (string * string) :=
  match payload with
  | Some (JObject members) =>
      omap (fun m => match m.2 with JString s => Some (m.1, s) | _ => None end) members
  | _ => []
  end.

(** Modelled from the spec: [addSystemLabels(systemLabels, &labelKeys,
    &labelValues)], missing with the collector.  The payload is decoded
    into a generic tree; only a root that is an object is accepted and
    flattened into string-valued pairs, each appended unless its key is
    already present; any other shape, unparsable text or empty input
    leaves the label set as it is. *)
Definition addSystemLabels (systemLabels : string) (ls : labelSet) : labelSet :=
  addLabels (systemLabelPairs (jsonUnmarshal systemLabels)) ls.

(** The label processing of [reportTimeSeriesMetrics], as
    [TestMonitoringCollector_LabelProcessingOrder] writes it out. *)
Definition processLabels (enableSystemLabels userLabelsOverride : bool) (unitLabel : string)
    (metricLabels resourceLabels userLabels : list (string * string))
    (systemLabelsJSON : string) : labelSet :=
  let ls : labelSet := (["unit"%string], [unitLabel]) in
  let ls := addLabels metricLabels ls in
  let ls := addLabels resourceLabels ls in
  if userLabelsOverride then
    let ls := addLabels userLabels ls in
    if enableSystemLabels then addSystemLabels systemLabelsJSON ls else ls
  else
    let ls := if enableSystemLabels then addSystemLabels systemLabelsJSON ls else ls in
    addLabels userLabels ls.

End WithDecoder.

(** *** A reference decoder

    A small JSON reader, used where a statement needs a concrete decoder:
    objects, arrays, strings with the single-character escapes, numbers
    and the three literals. *)

Definition dquote : ascii := "034"%char.
Definition backslash : ascii := "092"%char.

Definition isSpace (c : ascii) : bool :=
  (Ascii.eqb c " " || Ascii.eqb c "009" || Ascii.eqb c "010" || Ascii.eqb c "013")%char.

Fixpoint skipSpace (s : string) : string :=
  match s with
  | String c s' => if isSpace c then skipSpace s' else s
  | EmptyString => s
  end.

Definition unescape (c : ascii) : option ascii :=
  if Ascii.eqb c dquote then Some dquote
  else if Ascii.eqb c backslash then Some backslash
  else if Ascii.eqb c "/" then Some "/"%char
  else if Ascii.eqb c "b" then Some "008"%char
  else if Ascii.eqb c "f" then Some "012"%char
  else if Ascii.eqb c "n" then Some "010"%char
  else if Ascii.eqb c "r" then Some "013"%char
  else if Ascii.eqb c "t" then Some "009"%char
  else None.

(** The text after an opening quote: the string up to the closing quote
    and what follows it. *)
Fixpoint scanString (s : string) : option (string * string) :=
  match s with
  | EmptyString => None
  | String c s' =>
      if Ascii.eqb c dquote then Some (EmptyString, s')
      else if Ascii.eqb c backslash then
        match s' with
        | String e s'' =>
            c' ← unescape e;
            r ← scanString s'';
            Some (String c' r.1, r.2)
        | EmptyString => None
        end
      else if (N_of_ascii c <? 32)%N then None
      else r ← scanString s'; Some (String c r.1, r.2)
  end.

Definition isNumberChar (c : ascii) : bool :=
  let n := N_of_ascii c in
  ((48 <=? n) && (n <=? 57))%N
  || Ascii.eqb c "-" || Ascii.eqb c "+" || Ascii.eqb c "." || Ascii.eqb c "e" || Ascii.eqb c "E".

Fixpoint scanNumber (s : string) : string * string :=
  match s with
  | String c s' =>
      if isNumberChar c then let r := scanNumber s' in (String c r.1, r.2)
      else (EmptyString, s)
  | EmptyString => (EmptyString, s)
  end.

(** [s] without the prefix [p], when it starts with it. *)
Fixpoint dropPrefix (p s : string) : option string :=
  match p, s with
  | EmptyString, _ => Some s
  | String a p', String b s' => if Ascii.eqb a b then dropPrefix p' s' else None
  | String _ _, EmptyString => None
  end.

Definition parseLiteral (s : string) : option (json * string) :=
  match dropPrefix "null" s, dropPrefix "true" s, dropPrefix "false" s with
  | Some r, _, _ => Some (JNull, r)
  | _, Some r, _ => Some (JBool true, r)
  | _, _, Some r => Some (JBool false, r)
  | _, _, _ =>
      match s with
      | String c _ =>
          if ((48 <=? N_of_ascii c) && (N_of_ascii c <=? 57))%N || Ascii.eqb c "-"
          then let r := scanNumber s in Some (JNumber r.1, r.2)
          else None
      | EmptyString => None
      end
  end.

Fixpoint parseValue (fuel : nat) (s : string) {struct fuel} : option (json * string) :=
  match fuel with
  | O => None
  | S fuel' =>
      match skipSpace s with
      | EmptyString => None
      | String c rest =>
          if Ascii.eqb c "{" then
            match skipSpace rest with
            | String "}" rest' => Some (JObject [], rest')
            | _ => r ← parseMembers fuel' rest; Some (JObject r.1, r.2)
            end
          else if Ascii.eqb c "[" then
            match skipSpace rest with
            | String "]" rest' => Some (JArray [], rest')
            | _ => r ← parseItems fuel' rest; Some (JArray r.1, r.2)
            end
          else if Ascii.eqb c dquote then
            r ← scanString rest; Some (JString r.1, r.2)
          else parseLiteral (String c rest)
      end
  end
with parseMembers (fuel : nat) (s : string) {struct fuel}
  : option (list (string * json) * string) :=
  match fuel with
  | O => None
  | S fuel' =>
      match skipSpace s with
      | String c rest =>
          if Ascii.eqb c dquote then
            k ← scanString rest;
            match skipSpace k.2 with
            | String ":" rest2 =>
                v ← parseValue fuel' rest2;
                match skipSpace v.2 with
                | String "," rest4 =>
                    ms ← parseMembers fuel' rest4; Some ((k.1, v.1) :: ms.1, ms.2)
                | String "}" rest4 => Some ([(k.1, v.1)], rest4)
                | _ => None
                end
            | _ => None
            end
          else None
      | EmptyString => None
      end
  end
with parseItems (fuel : nat) (s : string) {struct fuel} : option (list json * string) :=
  match fuel with
  | O => None
  | S fuel' =>
      v ← parseValue fuel' s;
      match skipSpace v.2 with
      | String "," rest => r ← parseItems fuel' rest; Some (v.1 :: r.1, r.2)
      | String "]" rest => Some ([v.1], rest)
      | _ => None
      end
  end.

(** The whole text must be one value, white space apart. *)
Definition jsonDecode (raw : string) : option json :=
  r ← parseValue (2 * String.length raw + 2) raw;
  match skipSpace r.2 with
  | EmptyString => Some r.1
  | String _ _ => None
  end.

(** Text between quotes, and one ["key": "value"] member. *)
Definition quoted (s : string) : string :=
  String dquote (s ++ String dquote EmptyString).

Definition member (key value : string) : string :=
  quoted key ++ ": " ++ quoted value.

End labels.

(** ** Vocabulary of the statements *)

(** What [hashLabelsTimestamp] and [hashLabels] have in common: the
    accumulator after the name, the separator and the labels. *)
Definition hashNameAndLabels (pdq_long : (nat -> nat -> bool) -> list nat -> list nat)
    (fqName : string) (labelKeys labelValues : list string) : option Z :=
  let h := hash.AddByte (hash.Add hash.New fqName) hash.SeparatorByte in
  if decide (0 < length labelKeys)%nat
  then hashSortedLabels labelKeys labelValues h (sortedIndices pdq_long labelKeys)
  else Some h.

(** Insertion sort of increasing indices is stable: the output is sorted
    by [less], and by index among elements that compare equal. *)
Definition stableBefore (less : nat -> nat -> bool) (a b : nat) : Prop :=
  less b a = false /\ (less a b = false -> (a < b)%nat).

(** "Ties preserve original relative order": whenever two indices
    [i < j] carry equal keys, [i] is visited before [j]. *)
Definition tiesKeepOriginalOrder (labelKeys : list string) (indices : list nat) : Prop :=
  forall i j p q key,
    (i < j)%nat -> labelKeys !! i = Some key -> labelKeys !! j = Some key ->
    indices !! p = Some i -> indices !! q = Some j -> (p < q)%nat.

(** "Sorted by ascending byte-wise comparison of each key": no visited
    key is smaller than a key visited before it. *)
Definition ascendingByKey (labelKeys : list string) (indices : list nat) : Prop :=
  StronglySorted
    (fun a b => string_lt (keyAt labelKeys b) (keyAt labelKeys a) = false) indices.

(** What one label adds to the accumulator. *)
Definition foldLabel (h : Z) (key : string) (value : option string) : Z :=
  let h := hash.AddByte (hash.Add h key) hash.SeparatorByte in
  hash.AddByte (match value with Some v => hash.Add h v | None => h end) hash.SeparatorByte.

(** The label at an index of a list of (key, value) pairs. *)
Definition pairAt (labels : list (string * string)) (idx : nat) : string * string :=
  default (EmptyString, EmptyString) (labels !! idx).

(** No key occurs with two different values: two labels of the list with
    the same key are the same label. *)
Definition keysDetermineValues (labels : list (string * string)) : Prop :=
  forall p q, p ∈ labels -> q ∈ labels -> p.1 = q.1 -> p = q.

(** The labels in the order the loop visits them. *)
Definition visited (pdq_long : (nat -> nat -> bool) -> list nat -> list nat)
    (labels : list (string * string)) : list (string * string) :=
  pairAt labels <$> sortedIndices pdq_long labels.*1.

(** What a call of [CheckAndMark] that computed the signature [sig] in
    state [d] returns and leaves. *)
Definition CheckAndMark_post (d : MetricDeduplicator) (sig : Z)
    (result : bool * MetricDeduplicator) : Prop :=
  checksTotal result.2 = S (checksTotal d) /\
  (sig ∈ sentSignatures d ->
     result.1 = true /\
     duplicatesTotal result.2 = S (duplicatesTotal d) /\
     sentSignatures result.2 = sentSignatures d /\
     uniqueMetricsGauge result.2 = uniqueMetricsGauge d) /\
  (sig ∉ sentSignatures d ->
     result.1 = false /\
     sentSignatures result.2 = {[sig]} ∪ sentSignatures d /\
     duplicatesTotal result.2 = duplicatesTotal d /\
     uniqueMetricsGauge result.2 = size (sentSignatures result.2)).

(** The calls of [TestMetricDeduplicator_Reset]: two marks of one sample,
    a mark at a later instant, a reset, and the first sample again. *)
Definition resetScenario : list dedup.call :=
  [dedup.CallCheckAndMark "test_metric" ["label1"; "label2"] ["value1"; "value2"]
     1694174400000000000;
   dedup.CallCheckAndMark "test_metric" ["label1"; "label2"] ["value1"; "value2"]
     1694174400000000000;
   dedup.CallCheckAndMark "test_metric" ["label1"; "label2"] ["value1"; "value2"]
     1694174401000000000;
   dedup.CallReset;
   dedup.CallCheckAndMark "test_metric" ["label1"; "label2"] ["value1"; "value2"]
     1694174400000000000]%string.

(** The four payloads of [TestMonitoringCollector_AddSystemLabels_InvalidJSON]. *)
Definition invalidPayloads : list string :=
  ["{invalid json}"; EmptyString; "null";
   "[" ++ labels.quoted "not" ++ ", " ++ labels.quoted "an" ++ ", "
       ++ labels.quoted "object" ++ "]"]%string.

(** The payload of the two conflict cases of
    [TestMonitoringCollector_LabelProcessingOrder]. *)
Definition conflictPayload : string :=
  ("{" ++ labels.member "conflict_key" "system_value" ++ ", "
       ++ labels.member "system_only" "system_only_value" ++ "}")%string.

(** The two ways of digesting a 64-bit value disagree at [v], from the
    fresh state. *)
Definition digestsDiffer (v : Z) : bool :=
  negb (Z.eqb (hash.AddUint64 hash.New v) (hash.xorThenMultiplyOnce hash.New v)).

(** The value of [TestAddUint64ByteOrderConsistency] and
    [TestAddUint64VsOldImplementation]. *)
Definition testValue : Z := 0x0102030405060708.

(** A nonzero 64-bit value the two digests agree on. *)
Definition coincidence : Z := 0x4f05f38cf9be1a3e.

(** ** Further vocabulary: runs, marks and label lookups *)

(** The two branches of [CheckAndMark] once the signature is computed:
    the flag returned and the state left. *)
Definition markSignature (d : MetricDeduplicator) (signature : Z) : bool * MetricDeduplicator :=
  if decide (signature ∈ sentSignatures d)
  then (true,
        mkMetricDeduplicator (sentSignatures d) (S (duplicatesTotal d)) (S (checksTotal d))
          (uniqueMetricsGauge d))
  else (false,
        mkMetricDeduplicator ({[signature]} ∪ sentSignatures d) (duplicatesTotal d)
          (S (checksTotal d)) (size ({[signature]} ∪ sentSignatures d))).

(** The body of [RevertMark] once the signature is computed. *)
Definition unmarkSignature (d : MetricDeduplicator) (signature : Z) : MetricDeduplicator :=
  mkMetricDeduplicator (sentSignatures d ∖ {[signature]}) (duplicatesTotal d) (checksTotal d)
    (size (sentSignatures d ∖ {[signature]})).

(** The signature a call computes, if it computes one. *)
Definition callSignature (pdq_long : (nat -> nat -> bool) -> list nat -> list nat)
    (c : dedup.call) : option Z :=
  match c with
  | dedup.CallCheckAndMark name ks vs ts => dedup.hashLabelsTimestamp pdq_long name ks vs ts
  | dedup.CallRevertMark name ks vs ts => dedup.hashLabelsTimestamp pdq_long name ks vs ts
  | dedup.CallReset => None
  end.

Definition isCheckAndMark (c : dedup.call) : bool :=
  match c with
  | dedup.CallCheckAndMark _ _ _ _ => true
  | _ => false
  end.

(** How many calls of a run are [CheckAndMark] calls. *)
Definition countCheckAndMark (calls : list dedup.call) : nat :=
  length (List.filter isCheckAndMark calls).

(** Calls on the project-labelled deduplicator, and a run of them. *)
Inductive projectCall : Type :=
| ProjectCheckAndMark (name : string) (labelKeys labelValues : list string)
| ProjectRevertMark (fqName : string) (labelKeys labelValues : list string) (ts : Z)
| ProjectReset.

Definition projectStep (pdq_long : (nat -> nat -> bool) -> list nat -> list nat)
    (d : MetricDeduplicator) (c : projectCall) : option MetricDeduplicator :=
  match c with
  | ProjectCheckAndMark name ks vs => snd <$> dedup_project.CheckAndMark pdq_long d name ks vs
  | ProjectRevertMark name ks vs ts => dedup_project.RevertMark pdq_long d name ks vs ts
  | ProjectReset => Some (dedup_project.Reset d)
  end.

Fixpoint projectRun (pdq_long : (nat -> nat -> bool) -> list nat -> list nat)
    (d : MetricDeduplicator) (calls : list projectCall) : option MetricDeduplicator :=
  match calls with
  | [] => Some d
  | c :: calls' => d' ← projectStep pdq_long d c; projectRun pdq_long d' calls'
  end.

Definition isProjectCheckAndMark (c : projectCall) : bool :=
  match c with
  | ProjectCheckAndMark _ _ _ => true
  | _ => false
  end.

Definition countProjectCheckAndMark (calls : list projectCall) : nat :=
  length (List.filter isProjectCheckAndMark calls).

(** What the gauge and the counters of a deduplicator keep true: the
    gauge is the size of the set, and every signature in the set was
    counted by a check that was not a duplicate. *)
Definition accounted (d : MetricDeduplicator) : Prop :=
  uniqueMetricsGauge d = size (sentSignatures d) /\
  (duplicatesTotal d + size (sentSignatures d) <= checksTotal d)%nat.

(** The accumulator after the name and its separator. *)
Definition hashName (fqName : string) : Z :=
  hash.AddByte (hash.Add hash.New fqName) hash.SeparatorByte.

(** A mapping in visiting order, as a label set. *)
Definition asLabelSet (m : list (string * string)) : labels.labelSet := (m.*1, m.*2).

(** The first of two optional values. *)
Definition orElse {A : Type} (a b : option A) : option A :=
  match a with
  | Some _ => a
  | None => b
  end.

(** Keys and values are parallel and no key occurs twice. *)
Definition wellFormed (ls : labels.labelSet) : Prop :=
  length ls.1 = length ls.2 /\ NoDup ls.1.

(** The label set before the user and system labels: unit, metric and
    resource labels. *)
Definition baseLabels (unitLabel : string) (metricLabels resourceLabels : list (string * string))
    : labels.labelSet :=
  labels.addLabels resourceLabels
    (labels.addLabels metricLabels (["unit"%string], [unitLabel])).

(** Modelled from the spec: [addOrOverrideLabels(&labelKeys, &labelValues,
    key, value, override)], missing with the collector; its test table is
    present.  It appends if the key is absent; if the key is present it
    does nothing without [override] and replaces the value at the key's
    first occurrence with it. *)
Definition addOrOverrideLabels (ls : labels.labelSet) (key value : string) (override : bool)
    : labels.labelSet :=
  match labels.findKeyIndex ls.1 key with
  | None => (ls.1 ++ [key], ls.2 ++ [value])
  | Some idx => if override then (ls.1, <[idx:=value]> ls.2) else ls
  end.

(** The calls of a goroutine of [TestMetricDeduplicator_ConcurrentAccess],
    twice over for two goroutines, one after the other. *)
Definition twoWorkers : list dedup.call :=
  [dedup.CallCheckAndMark "test_metric" ["goroutine_id"] ["0"] 1694174400000000000;
   dedup.CallCheckAndMark "test_metric" ["goroutine_id"] ["1"] 1694174400000000000;
   dedup.CallCheckAndMark "test_metric" ["goroutine_id"] ["0"] 1694174400000000000;
   dedup.CallCheckAndMark "test_metric" ["goroutine_id"] ["1"] 1694174400000000000]%string.

(** A metric marked twice, reverted at some instant, and marked again. *)
Definition projectScenario : list projectCall :=
  [ProjectCheckAndMark "benchmark_metric" ["region"; "zone"] ["us-central1"; "us-central1-a"];
   ProjectCheckAndMark "benchmark_metric" ["region"; "zone"] ["us-central1"; "us-central1-a"];
   ProjectRevertMark "benchmark_metric" ["region"; "zone"] ["us-central1"; "us-central1-a"]
     1694174400000000000;
   ProjectCheckAndMark "benchmark_metric" ["region"; "zone"] ["us-central1"; "us-central1-a"];
   ProjectReset]%string.

(** The system labels a payload contributes when they are enabled. *)
Definition systemSource (jsonUnmarshal : string -> option labels.json)
    (enableSystemLabels : bool) (systemLabelsJSON : string) : list (string * string) :=
  if enableSystemLabels
  then labels.systemLabelPairs (jsonUnmarshal systemLabelsJSON)
  else [].

(** * Properties *)

(** Closes [NoDup l] for a list of distinct string literals. *)
Ltac distinct_keys :=
  repeat (apply NoDup_cons_2;
          [rewrite ?not_elem_of_cons; repeat split;
           solve [discriminate | apply not_elem_of_nil]|]);
  apply NoDup_nil_2.

(** ** The accumulator *)

Lemma byteAt_div_mod (v : Z) (i : nat) :
  hash.byteAt v i = (v / 2 ^ (8 * Z.of_nat i)) mod 256.
Proof.
  unfold hash.byteAt.
  rewrite Z.shiftr_div_pow2 by lia.
  change 255 with (Z.ones 8). rewrite Z.land_ones by lia. reflexivity.
Qed.

Lemma littleEndianBytes_byteAt (n : nat) (v : Z) (k : nat) :
  hash.littleEndianBytes n (v / 2 ^ (8 * Z.of_nat k))
  = map (hash.byteAt v) (seq k n).
Proof.
  revert k. induction n as [|n IH]; intros k; [reflexivity|].
  cbn [hash.littleEndianBytes seq map]. f_equal.
  - symmetry. apply byteAt_div_mod.
  - rewrite <- IH. f_equal.
    rewrite Z.div_div by lia. f_equal.
    replace (8 * Z.of_nat (S k)) with (8 * Z.of_nat k + 8) by lia.
    rewrite Z.pow_add_r by lia. reflexivity.
Qed.

Lemma AddUint64_fold (h v : Z) :
  hash.AddUint64 h v = fold_left hash.AddByte (hash.littleEndianBytes 8 v) h.
Proof.
  unfold hash.AddUint64.
  pose proof (littleEndianBytes_byteAt 8 v 0) as H.
  change (2 ^ (8 * Z.of_nat 0)) with 1 in H. rewrite Z.div_1_r in H.
  rewrite H. generalize (seq 0 8). intros l. revert h.
  induction l as [|i l IH]; intros h; [reflexivity|]. cbn. apply IH.
Qed.

Lemma digestsDiffer_spec (v : Z) :
  digestsDiffer v = true ->
  hash.AddUint64 hash.New v <> hash.xorThenMultiplyOnce hash.New v.
Proof.
  unfold digestsDiffer. intros H Heq. rewrite Heq, Z.eqb_refl in H. discriminate.
Qed.

Lemma digestsDiffer_one_byte :
  forallb (fun n => digestsDiffer (Z.of_nat n)) (seq 1 255) = true.
Proof. vm_compute. reflexivity. Qed.

(** C3 (as stated) fails: the byte-wise digest and the single
    xor-then-multiply step agree on a nonzero 64-bit value. *)
Lemma digests_coincide_on_a_nonzero_value :
  hash.isUint64 coincidence /\ coincidence <> 0 /\
  hash.AddUint64 hash.New coincidence = hash.xorThenMultiplyOnce hash.New coincidence.
Proof.
  split; [unfold hash.isUint64, coincidence; lia|].
  split; [discriminate|]. vm_compute. reflexivity.
Qed.

(** C3 (amended).  Byte-order contract of the hash primitive: for every
    64-bit state [h] and value [v], [AddUint64(h, v)] equals folding
    [AddByte] over the eight bytes of [v] taken least-significant byte
    first, where [AddByte(s, b) = (s XOR b) * prime] with 64-bit
    wrap-around; and [AddUint64(New(), v)] differs from the single step
    [(New() XOR v) * prime] for the value [0x0102030405060708] of the
    tests and for every nonzero [v] below 256. *)
Theorem AddUint64_byte_order :
  (forall h v, hash.AddUint64 h v = fold_left hash.AddByte (hash.littleEndianBytes 8 v) h) /\
  (forall s b, hash.AddByte s b = (Z.lxor s b * hash.prime64) mod 2 ^ 64) /\
  hash.AddUint64 hash.New testValue <> hash.xorThenMultiplyOnce hash.New testValue /\
  (forall v, 0 < v < 256 ->
             hash.AddUint64 hash.New v <> hash.xorThenMultiplyOnce hash.New v).
Proof.
  split; [exact AddUint64_fold|]. split; [reflexivity|]. split.
  - apply digestsDiffer_spec. vm_compute. reflexivity.
  - intros v Hv. apply digestsDiffer_spec.
    pose proof digestsDiffer_one_byte as Hall. rewrite forallb_forall in Hall.
    rewrite <- (Z2Nat.id v) by lia. apply Hall, in_seq. lia.
Qed.

Lemma AddUint64_byte_order_witness :
  0 < 42 < 256 /\
  hash.AddUint64 hash.New 42 <> hash.xorThenMultiplyOnce hash.New 42.
Proof.
  split; [lia|].
  apply (proj2 (proj2 (proj2 AddUint64_byte_order)) 42). lia.
Defined.

(** ** Byte-wise order of Go strings *)

Lemma compare_refl (s : string) : String.compare s s = Eq.
Proof.
  induction s as [|c s IH]; [reflexivity|]. cbn.
  unfold Ascii.compare. rewrite N.compare_refl. exact IH.
Qed.

Lemma compare_Lt_trans (a b c : string) :
  String.compare a b = Lt -> String.compare b c = Lt -> String.compare a c = Lt.
Proof.
  revert b c. induction a as [|x a IH]; intros [|y b] [|z c]; cbn; try congruence.
  unfold Ascii.compare.
  destruct (N.compare_spec (N_of_ascii x) (N_of_ascii y)) as [Hxy|Hxy|Hxy];
    destruct (N.compare_spec (N_of_ascii y) (N_of_ascii z)) as [Hyz|Hyz|Hyz];
    try congruence; intros H1 H2.
  - rewrite Hxy, Hyz, N.compare_refl. eauto.
  - rewrite Hxy. apply N.compare_lt_iff in Hyz. rewrite Hyz. reflexivity.
  - rewrite <- Hyz. apply N.compare_lt_iff in Hxy. rewrite Hxy. reflexivity.
  - assert (N_of_ascii x < N_of_ascii z)%N as Hxz by lia.
    apply N.compare_lt_iff in Hxz. rewrite Hxz. reflexivity.
Qed.

Lemma string_lt_spec (a b : string) : string_lt a b = true <-> String.compare a b = Lt.
Proof.
  unfold string_lt, String.ltb. destruct (String.compare a b); split; congruence.
Qed.

Lemma string_lt_irrefl (a : string) : string_lt a a = false.
Proof. unfold string_lt, String.ltb. rewrite compare_refl. reflexivity. Qed.

Lemma string_lt_trans (a b c : string) :
  string_lt a b = true -> string_lt b c = true -> string_lt a c = true.
Proof. rewrite !string_lt_spec. apply compare_Lt_trans. Qed.

Lemma string_lt_total (a b : string) :
  string_lt a b = false -> string_lt b a = false -> a = b.
Proof.
  unfold string_lt, String.ltb. rewrite (String.compare_antisym a b).
  destruct (String.compare b a) eqn:E; cbn; try congruence.
  intros _ _. symmetry. apply String.compare_eq_iff. exact E.
Qed.

Lemma string_lt_cotrans (a b c : string) :
  string_lt a c = true -> string_lt a b = true \/ string_lt b c = true.
Proof.
  intros Hac.
  destruct (string_lt a b) eqn:Hab; [left; reflexivity|].
  destruct (string_lt b c) eqn:Hbc; [right; reflexivity|]. exfalso.
  destruct (string_lt b a) eqn:Hba.
  - destruct (string_lt c b) eqn:Hcb.
    + pose proof (string_lt_trans _ _ _ Hcb Hba) as Hca.
      pose proof (string_lt_trans _ _ _ Hac Hca) as Haa.
      rewrite string_lt_irrefl in Haa. discriminate.
    + pose proof (string_lt_total _ _ Hbc Hcb). subst c. congruence.
  - pose proof (string_lt_total _ _ Hab Hba). subst b. congruence.
Qed.

Lemma lessByKey_order (labelKeys : list string) : sort.StrictWeakOrder (lessByKey labelKeys).
Proof.
  unfold lessByKey. constructor.
  - intros a. apply string_lt_irrefl.
  - intros a b c. apply string_lt_trans.
  - intros a b c. apply string_lt_cotrans.
Qed.

(** ** Insertion sort and [sort.Slice] *)

Section InsertionSort.
Context {A : Type} (less : A -> A -> bool).

Lemma sink_perm (x : A) (prefix : list A) : sort.sink less x prefix ≡ₚ x :: prefix.
Proof.
  induction prefix as [|y prefix IH]; cbn; [reflexivity|].
  destruct (less x y); [|reflexivity].
  rewrite IH. apply Permutation_swap.
Qed.

Lemma sink_fold_perm (l acc : list A) :
  fold_left (fun prefix x => sort.sink less x prefix) l acc ≡ₚ l ++ acc.
Proof.
  revert acc. induction l as [|x l IH]; intros acc; cbn; [reflexivity|].
  rewrite IH, sink_perm. symmetry. apply Permutation_middle.
Qed.

Lemma insertionSort_perm (l : list A) : sort.insertionSort_func less l ≡ₚ l.
Proof.
  unfold sort.insertionSort_func.
  rewrite <- Permutation_rev, sink_fold_perm, app_nil_r. reflexivity.
Qed.

(** Sinking keeps a prefix sorted for any relation [R] (read on the
    reversed prefix) that the two branches of the loop establish. *)
Lemma sink_sorted (R : relation A) (x : A) (prefix : list A) :
  (forall y, y ∈ prefix -> less x y = true -> R y x) ->
  (forall y z, y ∈ prefix -> z ∈ prefix -> less x y = false -> R y z -> R x z) ->
  (forall y, y ∈ prefix -> less x y = false -> R x y) ->
  StronglySorted R prefix -> StronglySorted R (sort.sink less x prefix).
Proof.
  induction prefix as [|y prefix IH]; intros Hpass Hstop Hstop1 Hs; cbn.
  - repeat constructor.
  - apply StronglySorted_inv in Hs as [Hs Hall].
    destruct (less x y) eqn:Hxy.
    + constructor.
      * apply IH; eauto using list_elem_of_further.
      * rewrite sink_perm. constructor; [|exact Hall].
        apply Hpass; [left|exact Hxy].
    + constructor; [constructor; assumption|].
      constructor; [apply Hstop1; [left|exact Hxy]|].
      rewrite Forall_forall in Hall |- *. intros z Hz.
      apply (Hstop y z); [left|right; exact Hz|exact Hxy|apply Hall, Hz].
Qed.

Hypothesis less_order : sort.StrictWeakOrder less.

Lemma less_asym (a b : A) : less a b = true -> less b a = false.
Proof.
  intros Hab. destruct (less b a) eqn:Hba; [|reflexivity].
  pose proof (sort.less_trans less less_order _ _ _ Hab Hba) as Haa.
  rewrite (sort.less_irrefl less less_order) in Haa. discriminate.
Qed.

Lemma less_false_trans (x y z : A) :
  less x y = false -> less y z = false -> less x z = false.
Proof.
  intros Hxy Hyz. destruct (less x z) eqn:Hxz; [|reflexivity].
  destruct (sort.less_cotrans less less_order x y z Hxz); congruence.
Qed.

Lemma sink_fold_sorted (l acc : list A) :
  StronglySorted (fun a b => less a b = false) acc ->
  StronglySorted (fun a b => less a b = false)
    (fold_left (fun prefix x => sort.sink less x prefix) l acc).
Proof.
  revert acc. induction l as [|x l IH]; intros acc Hacc; cbn; [exact Hacc|].
  apply IH, sink_sorted; [| | |exact Hacc].
  - intros y _. apply less_asym.
  - intros y z _ _. apply less_false_trans.
  - auto.
Qed.

Lemma StronglySorted_rev_flip (R : relation A) (l : list A) :
  StronglySorted R l -> StronglySorted (fun a b => R b a) (rev l).
Proof.
  induction 1 as [|x l Hs IH Hall]; cbn; [constructor|].
  apply StronglySorted_app_2; [|exact IH|repeat constructor].
  intros a b Ha Hb. apply list_elem_of_singleton in Hb. subst b.
  rewrite Forall_forall in Hall. apply Hall.
  apply list_elem_of_In, in_rev, list_elem_of_In. exact Ha.
Qed.

Lemma insertionSort_sorted (l : list A) :
  StronglySorted (fun a b => less b a = false) (sort.insertionSort_func less l).
Proof.
  unfold sort.insertionSort_func.
  apply (StronglySorted_rev_flip (fun a b => less a b = false)).
  apply sink_fold_sorted. constructor.
Qed.

End InsertionSort.

Lemma insertionSort_contract {A : Type} : sort.SliceContract (@sort.insertionSort_func A).
Proof.
  constructor.
  - intros less l. apply insertionSort_perm.
  - intros less l Ho. apply insertionSort_sorted, Ho.
Qed.

Lemma reversingSort_contract {A : Type} : sort.SliceContract (@sort.reversingSort A).
Proof.
  constructor.
  - intros less l. unfold sort.reversingSort.
    rewrite insertionSort_perm. symmetry. apply Permutation_rev.
  - intros less l Ho. apply insertionSort_sorted, Ho.
Qed.

Section SliceFacts.
Context {A : Type} (pdq_long : (A -> A -> bool) -> list A -> list A).
Hypothesis contract : sort.SliceContract pdq_long.

Lemma Slice_perm (less : A -> A -> bool) (l : list A) : sort.Slice pdq_long less l ≡ₚ l.
Proof.
  unfold sort.Slice. case_decide.
  - apply insertionSort_perm.
  - apply (sort.pdq_permutes pdq_long contract).
Qed.

Lemma Slice_sorted (less : A -> A -> bool) (l : list A) :
  sort.StrictWeakOrder less ->
  StronglySorted (fun a b => less b a = false) (sort.Slice pdq_long less l).
Proof.
  intros Ho. unfold sort.Slice. case_decide.
  - apply insertionSort_sorted, Ho.
  - apply (sort.pdq_sorts pdq_long contract), Ho.
Qed.

End SliceFacts.

Lemma sink_fold_stable (less : nat -> nat -> bool) (l acc : list nat) :
  sort.StrictWeakOrder less ->
  StronglySorted lt l ->
  Forall (fun x => Forall (fun y => (y < x)%nat) acc) l ->
  StronglySorted (fun a b => stableBefore less b a) acc ->
  StronglySorted (fun a b => stableBefore less b a)
    (fold_left (fun prefix x => sort.sink less x prefix) l acc).
Proof.
  intros Ho. revert acc. induction l as [|x l IH]; intros acc Hl Hlt Hacc; cbn; [exact Hacc|].
  apply StronglySorted_inv in Hl as [Hl Hx].
  apply Forall_cons in Hlt as [Hxacc Hlt].
  rewrite Forall_forall in Hxacc.
  apply IH; [exact Hl| |].
  - rewrite Forall_forall in Hlt, Hx |- *. intros z Hz.
    rewrite sink_perm. constructor; [apply Hx, Hz|apply Hlt, Hz].
  - apply sink_sorted; [| | |exact Hacc].
    + intros y _ Hxy. split; [apply (less_asym less Ho), Hxy|]. congruence.
    + intros y z Hy Hz Hxy [Hyz _]. split.
      * apply (less_false_trans less Ho x y z Hxy Hyz).
      * intros _. apply Hxacc, Hz.
    + intros y Hy Hxy. split; [exact Hxy|]. intros _. apply Hxacc, Hy.
Qed.

Lemma insertionSort_stable (less : nat -> nat -> bool) (l : list nat) :
  sort.StrictWeakOrder less ->
  StronglySorted lt l ->
  StronglySorted (stableBefore less) (sort.insertionSort_func less l).
Proof.
  intros Ho Hl. unfold sort.insertionSort_func.
  apply (StronglySorted_rev_flip (fun a b => stableBefore less b a)).
  apply sink_fold_stable; [exact Ho|exact Hl| |constructor].
  apply Forall_forall. intros x _. constructor.
Qed.

(** ** The sorted indices *)

Lemma seq_increasing (a n : nat) : StronglySorted lt (seq a n).
Proof.
  revert a. induction n as [|n IH]; intros a; cbn; constructor; [apply IH|].
  apply Forall_forall. intros x Hx. apply elem_of_seq in Hx. lia.
Qed.

Lemma StronglySorted_lookup_lt {A : Type} (R : relation A) (l : list A) (p q : nat) (x y : A) :
  StronglySorted R l -> (p < q)%nat -> l !! p = Some x -> l !! q = Some y -> R x y.
Proof.
  intros Hs. revert p q. induction Hs as [|z l Hs IH Hall]; intros p q Hpq Hp Hq.
  - rewrite lookup_nil in Hp. discriminate.
  - destruct q as [|q]; [lia|]. cbn in Hq. destruct p as [|p]; cbn in Hp.
    + injection Hp as ->. rewrite Forall_forall in Hall.
      apply Hall. eapply list_elem_of_lookup_2, Hq.
    + apply (IH p q); [lia|assumption|assumption].
Qed.

Lemma stable_tiesKeepOriginalOrder (labelKeys : list string) (indices : list nat) :
  StronglySorted (stableBefore (lessByKey labelKeys)) indices ->
  tiesKeepOriginalOrder labelKeys indices.
Proof.
  intros Hs i j p q key Hij Hi Hj Hp Hq.
  destruct (Nat.lt_trichotomy p q) as [Hlt|[Heq|Hgt]]; [exact Hlt| |].
  - subst q. rewrite Hp in Hq. injection Hq as ->. lia.
  - pose proof (StronglySorted_lookup_lt _ _ _ _ _ _ Hs Hgt Hq Hp) as [_ Hji].
    unfold lessByKey, keyAt in Hji. rewrite Hi, Hj in Hji. cbn in Hji.
    specialize (Hji (string_lt_irrefl key)). lia.
Qed.

Section SortedIndices.
Variable pdq_long : (nat -> nat -> bool) -> list nat -> list nat.
Hypothesis contract : sort.SliceContract pdq_long.

Lemma sortedIndices_perm (labelKeys : list string) :
  sortedIndices pdq_long labelKeys ≡ₚ seq 0 (length labelKeys).
Proof. apply Slice_perm, contract. Qed.

Lemma sortedIndices_bound (labelKeys : list string) :
  Forall (fun idx => (idx < length labelKeys)%nat) (sortedIndices pdq_long labelKeys).
Proof.
  rewrite sortedIndices_perm. apply Forall_forall. intros x Hx.
  apply elem_of_seq in Hx. lia.
Qed.

Lemma sortedIndices_ascending (labelKeys : list string) :
  ascendingByKey labelKeys (sortedIndices pdq_long labelKeys).
Proof.
  apply (Slice_sorted pdq_long contract (lessByKey labelKeys)), lessByKey_order.
Qed.

Lemma sortedIndices_stable_short (labelKeys : list string) :
  (length labelKeys <= sort.maxInsertion)%nat ->
  tiesKeepOriginalOrder labelKeys (sortedIndices pdq_long labelKeys).
Proof.
  intros Hlen. apply stable_tiesKeepOriginalOrder.
  unfold sortedIndices, sort.Slice. rewrite length_seq.
  rewrite decide_True by exact Hlen.
  apply insertionSort_stable; [apply lessByKey_order|apply seq_increasing].
Qed.

End SortedIndices.

(** ** The label loop as a fold *)

Lemma hashLabel_in_range (labelKeys labelValues : list string) (h : Z) (idx : nat) (key : string) :
  labelKeys !! idx = Some key ->
  hashLabel labelKeys labelValues h idx = Some (foldLabel h key (labelValues !! idx)).
Proof.
  intros Hk. unfold hashLabel, foldLabel. rewrite Hk. cbn.
  destruct (labelValues !! idx); reflexivity.
Qed.

Lemma hashSortedLabels_fold (labelKeys labelValues : list string) (indices : list nat) (h : Z) :
  Forall (fun idx => (idx < length labelKeys)%nat) indices ->
  hashSortedLabels labelKeys labelValues h indices
  = Some (fold_left (fun h idx => foldLabel h (keyAt labelKeys idx) (labelValues !! idx))
            indices h).
Proof.
  intros Hall. revert h. induction Hall as [|idx indices Hidx Hall IH]; intros h; [reflexivity|].
  cbn [hashSortedLabels fold_left].
  destruct (lookup_lt_is_Some_2 labelKeys idx Hidx) as [key Hkey].
  rewrite (hashLabel_in_range _ _ _ _ _ Hkey). cbn.
  unfold keyAt at 2. rewrite Hkey. cbn. apply IH.
Qed.

Lemma hashLabelsTimestamp_eq (pdq_long : (nat -> nat -> bool) -> list nat -> list nat)
    (fqName : string) (labelKeys labelValues : list string) (ts : Z) :
  dedup.hashLabelsTimestamp pdq_long fqName labelKeys labelValues ts
  = (h ← hashNameAndLabels pdq_long fqName labelKeys labelValues;
     Some (hash.AddUint64 h (uint64_of_int64 ts))).
Proof. reflexivity. Qed.

Lemma hashLabels_eq (pdq_long : (nat -> nat -> bool) -> list nat -> list nat)
    (fqName : string) (labelKeys labelValues : list string) :
  dedup_project.hashLabels pdq_long fqName labelKeys labelValues
  = hashNameAndLabels pdq_long fqName labelKeys labelValues.
Proof. reflexivity. Qed.

Lemma hashNameAndLabels_total (pdq_long : (nat -> nat -> bool) -> list nat -> list nat)
    (fqName : string) (labelKeys labelValues : list string) :
  sort.SliceContract pdq_long ->
  is_Some (hashNameAndLabels pdq_long fqName labelKeys labelValues).
Proof.
  intros contract. unfold hashNameAndLabels. case_decide; [|eauto].
  rewrite hashSortedLabels_fold by (apply sortedIndices_bound, contract). eauto.
Qed.

(** ** Order-independence *)

Lemma pairAt_seq (labels : list (string * string)) :
  pairAt labels <$> seq 0 (length labels) = labels.
Proof.
  induction labels as [|p labels IH]; [reflexivity|].
  cbn [length seq fmap list_fmap]. f_equal.
  rewrite <- fmap_S_seq, <- list_fmap_compose. exact IH.
Qed.

Lemma pairAt_key (labels : list (string * string)) (idx : nat) :
  keyAt labels.*1 idx = (pairAt labels idx).1.
Proof.
  unfold keyAt, pairAt. rewrite list_lookup_fmap.
  destruct (labels !! idx); reflexivity.
Qed.

Lemma pairAt_value (labels : list (string * string)) (idx : nat) :
  (idx < length labels)%nat -> labels.*2 !! idx = Some (pairAt labels idx).2.
Proof.
  intros Hidx. unfold pairAt. rewrite list_lookup_fmap.
  destruct (lookup_lt_is_Some_2 labels idx Hidx) as [p Hp]. rewrite Hp. reflexivity.
Qed.

Lemma fold_labels_pairs (labels : list (string * string)) (indices : list nat) (h : Z) :
  Forall (fun idx => (idx < length labels)%nat) indices ->
  fold_left (fun h idx => foldLabel h (keyAt labels.*1 idx) (labels.*2 !! idx)) indices h
  = fold_left (fun h p => foldLabel h p.1 (Some p.2)) (pairAt labels <$> indices) h.
Proof.
  intros Hall. revert h. induction Hall as [|idx indices Hidx Hall IH]; intros h; [reflexivity|].
  cbn [fold_left fmap list_fmap].
  rewrite pairAt_key, (pairAt_value _ _ Hidx). apply IH.
Qed.

Lemma NoDup_keysDetermineValues (labels : list (string * string)) :
  NoDup labels.*1 -> keysDetermineValues labels.
Proof.
  unfold keysDetermineValues.
  induction labels as [|r labels IH]; cbn; intros Hnd p q Hp Hq Heq.
  - apply elem_of_nil in Hp. contradiction.
  - apply NoDup_cons in Hnd as [Hr Hnd].
    apply elem_of_cons in Hp as [->|Hp]; apply elem_of_cons in Hq as [->|Hq].
    + reflexivity.
    + exfalso. apply Hr. rewrite Heq. apply list_elem_of_fmap_2, Hq.
    + exfalso. apply Hr. rewrite <- Heq. apply list_elem_of_fmap_2, Hp.
    + apply IH; assumption.
Qed.

Section OrderIndependence.
Variable pdq_long : (nat -> nat -> bool) -> list nat -> list nat.
Hypothesis contract : sort.SliceContract pdq_long.

Lemma visited_perm (labels : list (string * string)) : visited pdq_long labels ≡ₚ labels.
Proof.
  unfold visited. rewrite (sortedIndices_perm pdq_long contract).
  rewrite length_fmap, pairAt_seq. reflexivity.
Qed.

Lemma visited_sorted (labels : list (string * string)) :
  StronglySorted (fun p q => string_lt q.1 p.1 = false) (visited pdq_long labels).
Proof.
  unfold visited.
  eapply StronglySorted_fmap; [|apply (sortedIndices_ascending pdq_long contract)].
  intros x y. cbn. rewrite !pairAt_key. auto.
Qed.

Lemma visited_unique (labels labels' : list (string * string)) :
  keysDetermineValues labels -> labels ≡ₚ labels' ->
  visited pdq_long labels = visited pdq_long labels'.
Proof.
  intros Hnd Hperm.
  apply (StronglySorted_unique_strong (fun p q => string_lt q.1 p.1 = false)).
  - intros p q Hp Hq Hpq Hqp.
    apply Hnd.
    + rewrite <- (visited_perm labels). exact Hp.
    + rewrite Hperm, <- (visited_perm labels'). exact Hq.
    + apply string_lt_total; assumption.
  - apply visited_sorted.
  - apply visited_sorted.
  - rewrite !visited_perm. exact Hperm.
Qed.

Lemma hashNameAndLabels_visited (fqName : string) (labels : list (string * string)) :
  hashNameAndLabels pdq_long fqName labels.*1 labels.*2
  = Some (fold_left (fun h p => foldLabel h p.1 (Some p.2)) (visited pdq_long labels)
            (hash.AddByte (hash.Add hash.New fqName) hash.SeparatorByte)).
Proof.
  unfold hashNameAndLabels. case_decide as Hlen.
  - pose proof (sortedIndices_bound pdq_long contract labels.*1) as Hb.
    rewrite hashSortedLabels_fold by exact Hb.
    rewrite length_fmap in Hb. rewrite (fold_labels_pairs _ _ _ Hb). reflexivity.
  - assert (labels = []) as ->.
    { destruct labels; [reflexivity|]. cbn in Hlen. lia. }
    reflexivity.
Qed.

Lemma hashNameAndLabels_perm (fqName : string) (labels labels' : list (string * string)) :
  keysDetermineValues labels -> labels ≡ₚ labels' ->
  hashNameAndLabels pdq_long fqName labels.*1 labels.*2
  = hashNameAndLabels pdq_long fqName labels'.*1 labels'.*2.
Proof.
  intros Hnd Hperm. rewrite !hashNameAndLabels_visited.
  rewrite (visited_unique _ _ Hnd Hperm). reflexivity.
Qed.

End OrderIndependence.

(** ** Order of the labels and the signature *)

(** C1 (as stated) fails.  Two labels with the same key and different
    values, given in the two possible orders, are a permutation of one
    another and get different signatures, whatever the long-slice sort
    is: the two indices compare equal, the sort leaves them in the order
    given, and the values are folded in that order. *)
Lemma signature_depends_on_order_of_equal_keys :
  [("a", "1"); ("a", "2")]%string ≡ₚ [("a", "2"); ("a", "1")]%string /\
  forall pdq_long,
    dedup.hashLabelsTimestamp pdq_long "m" ["a"; "a"]%string ["1"; "2"]%string 0
    <> dedup.hashLabelsTimestamp pdq_long "m" ["a"; "a"]%string ["2"; "1"]%string 0.
Proof.
  split; [apply perm_swap|].
  intros pdq_long. vm_compute. discriminate.
Qed.

(** C1 (amended).  Order-independence of signatures: for every metric
    name, timestamp and list of (key, value) label pairs in which no key
    occurs with two different values (every list with pairwise distinct
    keys, in particular), and for every permutation of that list,
    [hashLabelsTimestamp] returns a signature, and the same one, on the
    permuted list as on the original list; so does [hashLabels] of the
    project-labelled deduplicator. *)
Theorem signature_order_independent
    (pdq_long : (nat -> nat -> bool) -> list nat -> list nat)
    (contract : sort.SliceContract pdq_long)
    (name : string) (ts : Z) (labels labels' : list (string * string)) :
  keysDetermineValues labels -> labels ≡ₚ labels' ->
  (exists sig,
      dedup.hashLabelsTimestamp pdq_long name labels.*1 labels.*2 ts = Some sig /\
      dedup.hashLabelsTimestamp pdq_long name labels'.*1 labels'.*2 ts = Some sig) /\
  (exists sig,
      dedup_project.hashLabels pdq_long name labels.*1 labels.*2 = Some sig /\
      dedup_project.hashLabels pdq_long name labels'.*1 labels'.*2 = Some sig).
Proof.
  intros Hdet Hperm.
  pose proof (hashNameAndLabels_perm pdq_long contract name _ _ Hdet Hperm) as Heq.
  destruct (hashNameAndLabels_total pdq_long name labels.*1 labels.*2 contract) as [h Hh].
  rewrite (hashLabels_eq _ _ labels.*1), (hashLabels_eq _ _ labels'.*1).
  rewrite (hashLabelsTimestamp_eq _ _ labels.*1), (hashLabelsTimestamp_eq _ _ labels'.*1).
  rewrite <- Heq, Hh. cbn. split; eexists; split; reflexivity.
Qed.

Lemma signature_order_independent_witness :
  (exists sig,
      dedup.hashLabelsTimestamp sort.insertionSort_func "test_metric"
        ["b"; "a"; "c"]%string ["val_b"; "val_a"; "val_c"]%string 1694174400000000000
      = Some sig /\
      dedup.hashLabelsTimestamp sort.insertionSort_func "test_metric"
        ["a"; "b"; "c"]%string ["val_a"; "val_b"; "val_c"]%string 1694174400000000000
      = Some sig) /\
  (exists sig,
      dedup_project.hashLabels sort.insertionSort_func "test_metric"
        ["b"; "a"; "c"]%string ["val_b"; "val_a"; "val_c"]%string = Some sig /\
      dedup_project.hashLabels sort.insertionSort_func "test_metric"
        ["a"; "b"; "c"]%string ["val_a"; "val_b"; "val_c"]%string = Some sig).
Proof.
  apply (signature_order_independent sort.insertionSort_func insertionSort_contract
           "test_metric" 1694174400000000000
           [("b", "val_b"); ("a", "val_a"); ("c", "val_c")]%string
           [("a", "val_a"); ("b", "val_b"); ("c", "val_c")]%string).
  - apply NoDup_keysDetermineValues. cbn. distinct_keys.
  - apply perm_swap.
Defined.

(** C2 (as stated) fails.  A sort that meets the contract of
    [sort.Slice] need not keep ties in their original order: on thirteen
    labels, the first two with the same key, index 1 is visited before
    index 0. *)
Lemma ties_not_kept_on_long_slices :
  ~ (forall pdq_long, sort.SliceContract pdq_long ->
     forall labelKeys, tiesKeepOriginalOrder labelKeys (sortedIndices pdq_long labelKeys)).
Proof.
  intros H.
  specialize (H sort.reversingSort reversingSort_contract
                ["b"; "b"; "a"; "a"; "a"; "a"; "a"; "a"; "a"; "a"; "a"; "a"; "a"]%string
                0%nat 1%nat 12%nat 11%nat "b"%string).
  cbn in H. specialize (H ltac:(lia) eq_refl eq_refl eq_refl eq_refl). lia.
Qed.

(** C2 (amended).  The label indices are visited in an order that is a
    permutation of [0 .. len(labelKeys)-1] and ascending by byte-wise
    comparison of the keys, for every input list of label keys; when two
    indices [i < j] carry equal keys, [i] is visited before [j] for every
    input of at most twelve labels, the slices [sort.Slice] sorts by
    insertion. *)
Theorem sorted_indices_order
    (pdq_long : (nat -> nat -> bool) -> list nat -> list nat)
    (contract : sort.SliceContract pdq_long) (labelKeys : list string) :
  sortedIndices pdq_long labelKeys ≡ₚ seq 0 (length labelKeys) /\
  ascendingByKey labelKeys (sortedIndices pdq_long labelKeys) /\
  ((length labelKeys <= 12)%nat ->
   tiesKeepOriginalOrder labelKeys (sortedIndices pdq_long labelKeys)).
Proof.
  split; [apply sortedIndices_perm, contract|].
  split; [apply sortedIndices_ascending, contract|].
  apply sortedIndices_stable_short.
Qed.

Lemma sorted_indices_order_witness :
  sortedIndices sort.reversingSort ["b"; "a"; "b"; "a"]%string ≡ₚ seq 0 4 /\
  ascendingByKey ["b"; "a"; "b"; "a"]%string
    (sortedIndices sort.reversingSort ["b"; "a"; "b"; "a"]%string) /\
  tiesKeepOriginalOrder ["b"; "a"; "b"; "a"]%string
    (sortedIndices sort.reversingSort ["b"; "a"; "b"; "a"]%string).
Proof.
  destruct (sorted_indices_order sort.reversingSort reversingSort_contract
              ["b"; "a"; "b"; "a"]%string) as (Hperm & Hasc & Hties).
  split; [exact Hperm|]. split; [exact Hasc|]. apply Hties. cbn. lia.
Defined.

(** ** A missing value is an empty value *)

Lemma hashLabel_padded (labelKeys labelValues : list string) (h : Z) (idx : nat) :
  (idx < length labelKeys)%nat ->
  hashLabel labelKeys
    (labelValues ++ replicate (length labelKeys - length labelValues) EmptyString) h idx
  = hashLabel labelKeys labelValues h idx.
Proof.
  intros Hidx. unfold hashLabel.
  destruct (labelKeys !! idx) as [key|]; [cbn|reflexivity].
  destruct (decide (idx < length labelValues)%nat) as [Hv|Hv].
  - rewrite lookup_app_l by exact Hv. reflexivity.
  - rewrite lookup_app_r by lia.
    rewrite (lookup_ge_None_2 labelValues idx) by lia.
    rewrite lookup_replicate_2 by lia. reflexivity.
Qed.

Lemma hashSortedLabels_padded (labelKeys labelValues : list string) (indices : list nat) (h : Z) :
  Forall (fun idx => (idx < length labelKeys)%nat) indices ->
  hashSortedLabels labelKeys
    (labelValues ++ replicate (length labelKeys - length labelValues) EmptyString) h indices
  = hashSortedLabels labelKeys labelValues h indices.
Proof.
  intros Hall. revert h. induction Hall as [|idx indices Hidx Hall IH]; intros h; [reflexivity|].
  cbn [hashSortedLabels]. rewrite (hashLabel_padded _ _ _ _ Hidx).
  destruct (hashLabel labelKeys labelValues h idx); [cbn; apply IH|reflexivity].
Qed.

(** C5.  A keys/values length mismatch is tolerated as an empty value:
    for every name, keys, values and timestamp with
    [len(values) < len(keys)], the signature computation returns a
    signature, the same one as on the values padded with empty strings
    up to [len(keys)]; an unmatched key is folded with its two separator
    bytes and no value bytes. *)
Theorem missing_value_is_empty_value
    (pdq_long : (nat -> nat -> bool) -> list nat -> list nat)
    (contract : sort.SliceContract pdq_long)
    (name : string) (labelKeys labelValues : list string) (ts : Z) :
  (length labelValues < length labelKeys)%nat ->
  (exists sig,
      dedup.hashLabelsTimestamp pdq_long name labelKeys labelValues ts = Some sig /\
      dedup.hashLabelsTimestamp pdq_long name labelKeys
        (labelValues ++ replicate (length labelKeys - length labelValues) EmptyString) ts
      = Some sig) /\
  (forall h idx key,
      (length labelValues <= idx)%nat -> labelKeys !! idx = Some key ->
      hashLabel labelKeys labelValues h idx
      = Some (hash.AddByte (hash.AddByte (hash.Add h key) hash.SeparatorByte)
                hash.SeparatorByte)).
Proof.
  intros Hlen. split.
  - destruct (hashNameAndLabels_total pdq_long name labelKeys labelValues contract)
      as [h Hh].
    exists (hash.AddUint64 h (uint64_of_int64 ts)).
    rewrite (hashLabelsTimestamp_eq _ _ _ labelValues).
    rewrite (hashLabelsTimestamp_eq _ _ _ (labelValues ++ _)).
    assert (hashNameAndLabels pdq_long name labelKeys
              (labelValues ++ replicate (length labelKeys - length labelValues) EmptyString)
            = hashNameAndLabels pdq_long name labelKeys labelValues) as ->.
    { unfold hashNameAndLabels. case_decide; [|reflexivity].
      apply hashSortedLabels_padded, sortedIndices_bound, contract. }
    rewrite Hh. split; reflexivity.
  - intros h idx key Hidx Hkey.
    rewrite (hashLabel_in_range _ _ _ _ _ Hkey).
    rewrite (lookup_ge_None_2 labelValues idx) by lia. reflexivity.
Qed.

Lemma missing_value_is_empty_value_witness :
  (exists sig,
      dedup.hashLabelsTimestamp sort.insertionSort_func "test_metric"
        ["label1"; "label2"]%string ["value1"]%string 1694174400000000000 = Some sig /\
      dedup.hashLabelsTimestamp sort.insertionSort_func "test_metric"
        ["label1"; "label2"]%string (["value1"]%string ++ replicate (2 - 1) EmptyString)
        1694174400000000000 = Some sig) /\
  hashLabel ["label1"; "label2"]%string ["value1"]%string hash.New 1
  = Some (hash.AddByte (hash.AddByte (hash.Add hash.New "label2") hash.SeparatorByte)
            hash.SeparatorByte).
Proof.
  destruct (missing_value_is_empty_value sort.insertionSort_func insertionSort_contract
              "test_metric" ["label1"; "label2"]%string ["value1"]%string
              1694174400000000000) as [Hsame Hunmatched]; [cbn; lia|].
  split; [exact Hsame|]. apply Hunmatched; [cbn; lia|reflexivity].
Defined.

(** ** The deduplicator *)

Section Deduplicator.
Variable pdq_long : (nat -> nat -> bool) -> list nat -> list nat.
Hypothesis contract : sort.SliceContract pdq_long.

Lemma hashLabelsTimestamp_total (name : string) (labelKeys labelValues : list string) (ts : Z) :
  is_Some (dedup.hashLabelsTimestamp pdq_long name labelKeys labelValues ts).
Proof.
  rewrite hashLabelsTimestamp_eq.
  destruct (hashNameAndLabels_total pdq_long name labelKeys labelValues contract) as [h ->].
  cbn. eauto.
Qed.

Lemma CheckAndMark_seen (d : MetricDeduplicator) (name : string)
    (labelKeys labelValues : list string) (ts sig : Z) :
  dedup.hashLabelsTimestamp pdq_long name labelKeys labelValues ts = Some sig ->
  sig ∈ sentSignatures d ->
  dedup.CheckAndMark pdq_long d name labelKeys labelValues ts
  = Some (true, mkMetricDeduplicator (sentSignatures d) (S (duplicatesTotal d))
                  (S (checksTotal d)) (uniqueMetricsGauge d)).
Proof.
  intros Hsig Hin. unfold dedup.CheckAndMark. rewrite Hsig. cbn.
  rewrite decide_True by exact Hin. reflexivity.
Qed.

Lemma CheckAndMark_new (d : MetricDeduplicator) (name : string)
    (labelKeys labelValues : list string) (ts sig : Z) :
  dedup.hashLabelsTimestamp pdq_long name labelKeys labelValues ts = Some sig ->
  sig ∉ sentSignatures d ->
  dedup.CheckAndMark pdq_long d name labelKeys labelValues ts
  = Some (false, mkMetricDeduplicator ({[sig]} ∪ sentSignatures d) (duplicatesTotal d)
                   (S (checksTotal d)) (size ({[sig]} ∪ sentSignatures d))).
Proof.
  intros Hsig Hin. unfold dedup.CheckAndMark. rewrite Hsig. cbn.
  rewrite decide_False by exact Hin. reflexivity.
Qed.

Lemma repeat_seen (n : nat) (d : MetricDeduplicator) (name : string)
    (labelKeys labelValues : list string) (ts sig : Z) :
  dedup.hashLabelsTimestamp pdq_long name labelKeys labelValues ts = Some sig ->
  sig ∈ sentSignatures d ->
  exists d', dedup.repeatCheckAndMark pdq_long n d name labelKeys labelValues ts
             = Some (replicate n true, d').
Proof.
  intros Hsig. revert d. induction n as [|n IH]; intros d Hin; [eexists; reflexivity|].
  cbn [dedup.repeatCheckAndMark]. rewrite (CheckAndMark_seen _ _ _ _ _ _ Hsig Hin). cbn.
  destruct (IH (mkMetricDeduplicator (sentSignatures d) (S (duplicatesTotal d))
                  (S (checksTotal d)) (uniqueMetricsGauge d)) Hin) as [d' ->].
  cbn. eexists; reflexivity.
Qed.

Lemma step_total_monotone (d : MetricDeduplicator) (c : dedup.call) :
  exists d', dedup.step pdq_long d c = Some d' /\
             (checksTotal d <= checksTotal d')%nat /\
             (duplicatesTotal d <= duplicatesTotal d')%nat.
Proof.
  destruct c as [name ks vs ts|name ks vs ts|]; cbn.
  - destruct (hashLabelsTimestamp_total name ks vs ts) as [sig Hsig].
    destruct (decide (sig ∈ sentSignatures d)) as [Hin|Hin].
    + rewrite (CheckAndMark_seen _ _ _ _ _ _ Hsig Hin). cbn.
      eexists; split; [reflexivity|cbn; lia].
    + rewrite (CheckAndMark_new _ _ _ _ _ _ Hsig Hin). cbn.
      eexists; split; [reflexivity|cbn; lia].
  - unfold dedup.RevertMark.
    destruct (hashLabelsTimestamp_total name ks vs ts) as [sig ->]. cbn.
    eexists; split; [reflexivity|cbn; lia].
  - eexists; split; [reflexivity|cbn; lia].
Qed.

Lemma run_total_monotone (calls : list dedup.call) (d : MetricDeduplicator) :
  exists d', dedup.run pdq_long d calls = Some d' /\
             (checksTotal d <= checksTotal d')%nat /\
             (duplicatesTotal d <= duplicatesTotal d')%nat.
Proof.
  revert d. induction calls as [|c calls IH]; intros d; cbn.
  - eexists; split; [reflexivity|lia].
  - destruct (step_total_monotone d c) as (d1 & -> & Hc1 & Hd1). cbn.
    destruct (IH d1) as (d' & -> & Hc & Hd). eexists; split; [reflexivity|lia].
Qed.

End Deduplicator.

(** C4.  Postconditions of [CheckAndMark], in both deduplicators: every
    call returns, and raises the checks counter by exactly one; if the
    computed signature is already in the set the call returns true and
    raises the duplicates counter by exactly one (set and gauge stay);
    otherwise it returns false, the signature is inserted into the set,
    the duplicates counter is unchanged and the gauge is set to the new
    size of the set. *)
Theorem CheckAndMark_postconditions
    (pdq_long : (nat -> nat -> bool) -> list nat -> list nat)
    (contract : sort.SliceContract pdq_long)
    (d : MetricDeduplicator) (name : string) (labelKeys labelValues : list string) (ts : Z) :
  (exists sig result,
      dedup.hashLabelsTimestamp pdq_long name labelKeys labelValues ts = Some sig /\
      dedup.CheckAndMark pdq_long d name labelKeys labelValues ts = Some result /\
      CheckAndMark_post d sig result) /\
  (exists sig result,
      dedup_project.hashLabels pdq_long name labelKeys labelValues = Some sig /\
      dedup_project.CheckAndMark pdq_long d name labelKeys labelValues = Some result /\
      CheckAndMark_post d sig result).
Proof.
  split.
  - destruct (hashLabelsTimestamp_total pdq_long contract name labelKeys labelValues ts)
      as [sig Hsig].
    exists sig. unfold dedup.CheckAndMark. rewrite Hsig. cbn.
    case_decide as Hin; eexists; (split; [reflexivity|]); (split; [reflexivity|]);
      unfold CheckAndMark_post; cbn; tauto.
  - destruct (hashNameAndLabels_total pdq_long name labelKeys labelValues contract)
      as [sig Hsig].
    rewrite <- hashLabels_eq in Hsig.
    exists sig. unfold dedup_project.CheckAndMark. rewrite Hsig. cbn.
    case_decide as Hin; eexists; (split; [reflexivity|]); (split; [reflexivity|]);
      unfold CheckAndMark_post; cbn; tauto.
Qed.

Lemma CheckAndMark_postconditions_witness :
  (exists sig result,
      dedup.hashLabelsTimestamp sort.insertionSort_func "test_metric"
        ["label1"]%string ["value1"]%string 1694174400000000000 = Some sig /\
      dedup.CheckAndMark sort.insertionSort_func dedup.NewMetricDeduplicator "test_metric"
        ["label1"]%string ["value1"]%string 1694174400000000000 = Some result /\
      CheckAndMark_post dedup.NewMetricDeduplicator sig result) /\
  (exists sig result,
      dedup_project.hashLabels sort.insertionSort_func "test_metric"
        ["label1"]%string ["value1"]%string = Some sig /\
      dedup_project.CheckAndMark sort.insertionSort_func dedup.NewMetricDeduplicator
        "test_metric" ["label1"]%string ["value1"]%string = Some result /\
      CheckAndMark_post dedup.NewMetricDeduplicator sig result).
Proof.
  exact (CheckAndMark_postconditions sort.insertionSort_func insertionSort_contract
           dedup.NewMetricDeduplicator "test_metric" ["label1"]%string ["value1"]%string
           1694174400000000000).
Defined.

(** C6.  Idempotence within an iteration: for every [n >= 1] and every
    fixed (name, keys, values, timestamp) whose signature is not yet
    marked (as in a new or freshly reset deduplicator), [n] calls of
    [CheckAndMark] with those arguments, nothing in between, return false
    on the first call and true on each of the remaining [n - 1]. *)
Theorem CheckAndMark_idempotent
    (pdq_long : (nat -> nat -> bool) -> list nat -> list nat)
    (contract : sort.SliceContract pdq_long)
    (n : nat) (d : MetricDeduplicator) (name : string) (labelKeys labelValues : list string)
    (ts : Z) :
  (1 <= n)%nat ->
  (forall sig, dedup.hashLabelsTimestamp pdq_long name labelKeys labelValues ts = Some sig ->
               sig ∉ sentSignatures d) ->
  exists d',
    dedup.repeatCheckAndMark pdq_long n d name labelKeys labelValues ts
    = Some (false :: replicate (n - 1) true, d').
Proof.
  intros Hn Hfresh. destruct n as [|n]; [lia|].
  destruct (hashLabelsTimestamp_total pdq_long contract name labelKeys labelValues ts)
    as [sig Hsig].
  cbn [dedup.repeatCheckAndMark].
  rewrite (CheckAndMark_new pdq_long _ _ _ _ _ _ Hsig (Hfresh sig Hsig)). cbn.
  replace (n - 0)%nat with n by lia.
  edestruct (repeat_seen pdq_long n) as [d' ->]; [exact Hsig| |cbn; eexists; reflexivity].
  cbn. set_solver.
Qed.

Lemma CheckAndMark_idempotent_witness :
  exists d',
    dedup.repeatCheckAndMark sort.insertionSort_func 3 dedup.NewMetricDeduplicator
      "test_metric" ["label1"; "label2"]%string ["value1"; "value2"]%string
      1694174400000000000
    = Some (false :: replicate (3 - 1) true, d').
Proof.
  apply (CheckAndMark_idempotent sort.insertionSort_func insertionSort_contract 3
           dedup.NewMetricDeduplicator "test_metric" ["label1"; "label2"]%string
           ["value1"; "value2"]%string 1694174400000000000).
  - lia.
  - intros sig _. cbn. apply not_elem_of_empty.
Defined.

(** C7.  Reset isolation: [Reset] empties the signature set and sets the
    gauge to 0 while leaving both counters exactly as they were; so the
    [CheckAndMark] that follows a [Reset] returns false whatever was
    marked before, for every tuple; and along every sequence of calls
    ([CheckAndMark], [RevertMark], [Reset]) the sequence runs to its end
    and neither counter decreases. *)
Theorem Reset_isolation
    (pdq_long : (nat -> nat -> bool) -> list nat -> list nat)
    (contract : sort.SliceContract pdq_long) :
  (forall d,
      sentSignatures (dedup.Reset d) = ∅ /\
      uniqueMetricsGauge (dedup.Reset d) = 0%nat /\
      checksTotal (dedup.Reset d) = checksTotal d /\
      duplicatesTotal (dedup.Reset d) = duplicatesTotal d) /\
  (forall d name labelKeys labelValues ts,
      exists d', dedup.CheckAndMark pdq_long (dedup.Reset d) name labelKeys labelValues ts
                 = Some (false, d')) /\
  (forall d calls,
      exists d', dedup.run pdq_long d calls = Some d' /\
                 (checksTotal d <= checksTotal d')%nat /\
                 (duplicatesTotal d <= duplicatesTotal d')%nat).
Proof.
  split; [intros d; cbn; auto|]. split.
  - intros d name ks vs ts.
    destruct (hashLabelsTimestamp_total pdq_long contract name ks vs ts) as [sig Hsig].
    rewrite (CheckAndMark_new pdq_long _ _ _ _ _ sig Hsig); [eexists; reflexivity|].
    cbn. apply not_elem_of_empty.
  - intros d calls. apply run_total_monotone, contract.
Qed.

Lemma Reset_isolation_witness :
  (sentSignatures (dedup.Reset (mkMetricDeduplicator {[ 7 ]} 1 3 1)) = ∅ /\
   uniqueMetricsGauge (dedup.Reset (mkMetricDeduplicator {[ 7 ]} 1 3 1)) = 0%nat /\
   checksTotal (dedup.Reset (mkMetricDeduplicator {[ 7 ]} 1 3 1)) = 3%nat /\
   duplicatesTotal (dedup.Reset (mkMetricDeduplicator {[ 7 ]} 1 3 1)) = 1%nat) /\
  (exists d', dedup.CheckAndMark sort.insertionSort_func
                (dedup.Reset (mkMetricDeduplicator {[ 7 ]} 1 3 1))
                "test_metric" ["label1"; "label2"]%string ["value1"; "value2"]%string
                1694174400000000000 = Some (false, d')) /\
  (exists d', dedup.run sort.insertionSort_func (mkMetricDeduplicator {[ 7 ]} 1 3 1)
                resetScenario = Some d' /\
              (3 <= checksTotal d')%nat /\ (1 <= duplicatesTotal d')%nat).
Proof.
  destruct (Reset_isolation sort.insertionSort_func insertionSort_contract)
    as (Hreset & Hfirst & Hrun).
  split; [apply (Hreset (mkMetricDeduplicator {[ 7 ]} 1 3 1))|].
  split; [apply Hfirst|apply (Hrun (mkMetricDeduplicator {[ 7 ]} 1 3 1) resetScenario)].
Defined.

(** C10.  In the project-labelled deduplicator the timestamp argument of
    [RevertMark] has no effect: for every state, every (name, keys,
    values) and any two timestamps, the two calls return, and leave the
    same state, gauge included; the signature they delete is the one
    [hashLabels] computes, without the timestamp. *)
Theorem RevertMark_ignores_timestamp
    (pdq_long : (nat -> nat -> bool) -> list nat -> list nat)
    (contract : sort.SliceContract pdq_long)
    (d : MetricDeduplicator) (fqName : string) (labelKeys labelValues : list string)
    (ts1 ts2 : Z) :
  exists sig d',
    dedup_project.hashLabels pdq_long fqName labelKeys labelValues = Some sig /\
    dedup_project.RevertMark pdq_long d fqName labelKeys labelValues ts1 = Some d' /\
    dedup_project.RevertMark pdq_long d fqName labelKeys labelValues ts2 = Some d' /\
    sentSignatures d' = sentSignatures d ∖ {[sig]} /\
    uniqueMetricsGauge d' = size (sentSignatures d').
Proof.
  destruct (hashNameAndLabels_total pdq_long fqName labelKeys labelValues contract)
    as [sig Hsig].
  rewrite <- hashLabels_eq in Hsig.
  exists sig. unfold dedup_project.RevertMark. rewrite Hsig. cbn.
  eexists. repeat split; reflexivity.
Qed.

Lemma RevertMark_ignores_timestamp_witness :
  exists sig d',
    dedup_project.hashLabels sort.insertionSort_func "test_metric"
      ["label1"]%string ["value1"]%string = Some sig /\
    dedup_project.RevertMark sort.insertionSort_func (mkMetricDeduplicator {[ 7 ]} 1 3 1)
      "test_metric" ["label1"]%string ["value1"]%string 1694174400000000000 = Some d' /\
    dedup_project.RevertMark sort.insertionSort_func (mkMetricDeduplicator {[ 7 ]} 1 3 1)
      "test_metric" ["label1"]%string ["value1"]%string 1694174401000000000 = Some d' /\
    sentSignatures d' = sentSignatures (mkMetricDeduplicator {[ 7 ]} 1 3 1) ∖ {[sig]} /\
    uniqueMetricsGauge d' = size (sentSignatures d').
Proof.
  exact (RevertMark_ignores_timestamp sort.insertionSort_func insertionSort_contract
           (mkMetricDeduplicator {[ 7 ]} 1 3 1) "test_metric" ["label1"]%string
           ["value1"]%string 1694174400000000000 1694174401000000000).
Defined.

(** ** Label assembly *)

Lemma findKeyIndex_bound (keys : list string) (key : string) (i : nat) :
  labels.findKeyIndex keys key = Some i -> (i < length keys)%nat.
Proof.
  revert i. induction keys as [|k keys IH]; intros i; cbn; [discriminate|].
  destruct (String.eqb k key).
  - intros [= <-]. lia.
  - destruct (labels.findKeyIndex keys key) as [j|]; cbn; [|discriminate].
    intros [= <-]. specialize (IH j eq_refl). lia.
Qed.

Lemma findKeyIndex_app_found (keys more : list string) (key : string) (i : nat) :
  labels.findKeyIndex keys key = Some i -> labels.findKeyIndex (keys ++ more) key = Some i.
Proof.
  revert i. induction keys as [|k keys IH]; intros i; cbn; [discriminate|].
  destruct (String.eqb k key); [auto|].
  destruct (labels.findKeyIndex keys key) as [j|]; cbn; [|discriminate].
  intros [= <-]. rewrite (IH j eq_refl). reflexivity.
Qed.

Lemma findKeyIndex_app_new (keys : list string) (key : string) :
  labels.findKeyIndex keys key = None ->
  labels.findKeyIndex (keys ++ [key]) key = Some (length keys).
Proof.
  induction keys as [|k keys IH]; cbn.
  - rewrite String.eqb_refl. reflexivity.
  - destruct (String.eqb k key); [discriminate|].
    destruct (labels.findKeyIndex keys key); cbn; [discriminate|].
    intros _. rewrite IH by reflexivity. reflexivity.
Qed.

Lemma keyExists_app_other (keys : list string) (key other : string) :
  other <> key -> labels.keyExists keys key = false ->
  labels.keyExists (keys ++ [other]) key = false.
Proof.
  intros Hne. unfold labels.keyExists.
  induction keys as [|k keys IH]; cbn.
  - apply String.eqb_neq in Hne. rewrite Hne. reflexivity.
  - destruct (String.eqb k key); [discriminate|].
    destruct (labels.findKeyIndex keys key); cbn; [discriminate|].
    intros _. specialize (IH eq_refl).
    destruct (labels.findKeyIndex (keys ++ [other]) key); [discriminate|reflexivity].
Qed.

Lemma keyExists_app_new (keys : list string) (key : string) :
  labels.keyExists (keys ++ [key]) key = true.
Proof.
  unfold labels.keyExists.
  destruct (labels.findKeyIndex keys key) as [i|] eqn:E.
  - rewrite (findKeyIndex_app_found _ _ _ _ E). reflexivity.
  - rewrite (findKeyIndex_app_new _ _ E). reflexivity.
Qed.

Lemma keyExists_app_found (keys more : list string) (key : string) :
  labels.keyExists keys key = true -> labels.keyExists (keys ++ more) key = true.
Proof.
  unfold labels.keyExists.
  destruct (labels.findKeyIndex keys key) as [i|] eqn:E; [|discriminate].
  rewrite (findKeyIndex_app_found _ _ _ _ E). reflexivity.
Qed.

Lemma appendIfAbsent_lengths (ls : labels.labelSet) (kv : string * string) :
  length ls.1 = length ls.2 ->
  length (labels.appendIfAbsent ls kv).1 = length (labels.appendIfAbsent ls kv).2.
Proof.
  intros H. unfold labels.appendIfAbsent. destruct (labels.keyExists ls.1 kv.1); [exact H|].
  cbn. rewrite !length_app, H. reflexivity.
Qed.

Lemma addLabels_lengths (m : list (string * string)) (ls : labels.labelSet) :
  length ls.1 = length ls.2 ->
  length (labels.addLabels m ls).1 = length (labels.addLabels m ls).2.
Proof.
  unfold labels.addLabels. revert ls. induction m as [|kv m IH]; intros ls H; [exact H|].
  cbn. apply IH, appendIfAbsent_lengths, H.
Qed.

(** The value of a key that [appendIfAbsent] has just appended. *)
Lemma labelValue_appended (ls : labels.labelSet) (key value : string) :
  length ls.1 = length ls.2 -> labels.keyExists ls.1 key = false ->
  labels.labelValue (ls.1 ++ [key], ls.2 ++ [value]) key = Some value.
Proof.
  intros Hlen Habs. unfold labels.labelValue, labels.keyExists in *. cbn.
  destruct (labels.findKeyIndex ls.1 key) eqn:E; [discriminate|].
  rewrite (findKeyIndex_app_new _ _ E). cbn.
  rewrite Hlen. apply list_lookup_middle. reflexivity.
Qed.

(** Appending further labels does not change the value of a key. *)
Lemma labelValue_app (ls : labels.labelSet) (moreKeys moreValues : list string)
    (key value : string) :
  length ls.1 = length ls.2 -> labels.labelValue ls key = Some value ->
  labels.labelValue (ls.1 ++ moreKeys, ls.2 ++ moreValues) key = Some value.
Proof.
  intros Hlen. unfold labels.labelValue. cbn.
  destruct (labels.findKeyIndex ls.1 key) as [i|] eqn:E; cbn; [|discriminate].
  intros Hv. rewrite (findKeyIndex_app_found _ _ _ _ E). cbn.
  rewrite lookup_app_l; [exact Hv|]. rewrite <- Hlen. apply (findKeyIndex_bound _ _ _ E).
Qed.

(** C8.  A malformed system-label payload is a silent no-op: for every
    pre-existing label set and every payload that does not decode
    (empty or unparsable text) or decodes to anything but an object (the
    literal null, an array, a scalar), [addSystemLabels] returns the
    keys and values exactly as they were; it returns nothing else, no
    error. *)
Theorem addSystemLabels_malformed_noop
    (jsonUnmarshal : string -> option labels.json) (systemLabels : string)
    (ls : labels.labelSet) :
  (forall members, jsonUnmarshal systemLabels <> Some (labels.JObject members)) ->
  labels.addSystemLabels jsonUnmarshal systemLabels ls = ls.
Proof.
  intros Hshape. unfold labels.addSystemLabels, labels.systemLabelPairs.
  destruct (jsonUnmarshal systemLabels) as [[| | | | |members]|]; try reflexivity.
  exfalso. apply (Hshape members). reflexivity.
Qed.

Lemma addSystemLabels_malformed_noop_witness :
  Forall (fun payload =>
            labels.addSystemLabels labels.jsonDecode payload
              (["existing"], ["value"])%string
            = (["existing"], ["value"])%string) invalidPayloads.
Proof.
  repeat (apply Forall_cons_2;
          [apply (addSystemLabels_malformed_noop labels.jsonDecode);
           intros members; vm_compute; discriminate|]).
  apply Forall_nil_2.
Defined.

(** C9.  Conflict precedence between user and system labels.  System
    labels are enabled; the user mapping binds [conflict_key] to
    [user_value]; the system payload is the object that binds
    [conflict_key] to [system_value] and a second key [system_only];
    neither key is among the unit, metric and resource labels.  Then
    with override off [conflict_key] is bound to [system_value], with
    override on it is bound to [user_value], and [system_only] is present
    with its value in both cases. *)
Theorem conflict_precedence
    (jsonUnmarshal : string -> option labels.json)
    (unitLabel : string) (metricLabels resourceLabels : list (string * string))
    (conflict_key user_value system_value system_only system_only_value : string)
    (systemLabelsJSON : string) :
  jsonUnmarshal systemLabelsJSON
  = Some (labels.JObject [(conflict_key, labels.JString system_value);
                          (system_only, labels.JString system_only_value)]) ->
  conflict_key <> system_only ->
  labels.keyExists
    (labels.addLabels resourceLabels
       (labels.addLabels metricLabels (["unit"%string], [unitLabel]))).1 conflict_key
  = false ->
  labels.keyExists
    (labels.addLabels resourceLabels
       (labels.addLabels metricLabels (["unit"%string], [unitLabel]))).1 system_only
  = false ->
  (labels.labelValue
     (labels.processLabels jsonUnmarshal true false unitLabel metricLabels resourceLabels
        [(conflict_key, user_value)] systemLabelsJSON) conflict_key = Some system_value /\
   labels.labelValue
     (labels.processLabels jsonUnmarshal true false unitLabel metricLabels resourceLabels
        [(conflict_key, user_value)] systemLabelsJSON) system_only
   = Some system_only_value) /\
  (labels.labelValue
     (labels.processLabels jsonUnmarshal true true unitLabel metricLabels resourceLabels
        [(conflict_key, user_value)] systemLabelsJSON) conflict_key = Some user_value /\
   labels.labelValue
     (labels.processLabels jsonUnmarshal true true unitLabel metricLabels resourceLabels
        [(conflict_key, user_value)] systemLabelsJSON) system_only
   = Some system_only_value).
Proof.
  intros Hdecode Hne Hck Hso.
  unfold labels.processLabels, labels.addSystemLabels. rewrite Hdecode.
  set (base := labels.addLabels resourceLabels
                 (labels.addLabels metricLabels (["unit"%string], [unitLabel]))) in *.
  assert (length base.1 = length base.2) as Hlen.
  { unfold base. do 2 apply addLabels_lengths. reflexivity. }
  cbn [labels.systemLabelPairs omap list_omap snd fst].
  unfold labels.addLabels at 1 2 3 4 5 6 7 8. cbn [fold_left].
  split.
  - (* override off: system labels first, then the user label *)
    unfold labels.appendIfAbsent at 3 6. cbn [fst snd]. rewrite Hck.
    unfold labels.appendIfAbsent at 2 4. cbn [fst snd].
    rewrite (keyExists_app_other _ _ _ Hne Hso).
    unfold labels.appendIfAbsent. cbn [fst snd].
    rewrite (keyExists_app_found (base.1 ++ [conflict_key]) [system_only])
      by apply keyExists_app_new.
    split.
    + apply (labelValue_app (base.1 ++ [conflict_key], base.2 ++ [system_value])).
      * cbn. rewrite !length_app, Hlen. reflexivity.
      * apply labelValue_appended; assumption.
    + apply (labelValue_appended (base.1 ++ [conflict_key], base.2 ++ [system_value])).
      * cbn. rewrite !length_app, Hlen. reflexivity.
      * cbn. apply keyExists_app_other; assumption.
  - (* override on: the user label first, then the system labels *)
    unfold labels.appendIfAbsent at 3 6. cbn [fst snd]. rewrite Hck.
    unfold labels.appendIfAbsent at 2 4. cbn [fst snd].
    rewrite keyExists_app_new.
    unfold labels.appendIfAbsent. cbn [fst snd].
    rewrite (keyExists_app_other _ _ _ Hne Hso).
    split.
    + apply (labelValue_app (base.1 ++ [conflict_key], base.2 ++ [user_value])).
      * cbn. rewrite !length_app, Hlen. reflexivity.
      * apply labelValue_appended; assumption.
    + apply (labelValue_appended (base.1 ++ [conflict_key], base.2 ++ [user_value])).
      * cbn. rewrite !length_app, Hlen. reflexivity.
      * cbn. apply keyExists_app_other; assumption.
Qed.

Lemma conflict_precedence_witness :
  (labels.labelValue
     (labels.processLabels labels.jsonDecode true false "percent"
        [("metric_key", "metric_value")] [("resource_key", "resource_value")]
        [("conflict_key", "user_value")] conflictPayload) "conflict_key"
   = Some "system_value" /\
   labels.labelValue
     (labels.processLabels labels.jsonDecode true false "percent"
        [("metric_key", "metric_value")] [("resource_key", "resource_value")]
        [("conflict_key", "user_value")] conflictPayload) "system_only"
   = Some "system_only_value") /\
  (labels.labelValue
     (labels.processLabels labels.jsonDecode true true "percent"
        [("metric_key", "metric_value")] [("resource_key", "resource_value")]
        [("conflict_key", "user_value")] conflictPayload) "conflict_key"
   = Some "user_value" /\
   labels.labelValue
     (labels.processLabels labels.jsonDecode true true "percent"
        [("metric_key", "metric_value")] [("resource_key", "resource_value")]
        [("conflict_key", "user_value")] conflictPayload) "system_only"
   = Some "system_only_value")%string.
Proof.
  apply (conflict_precedence labels.jsonDecode "percent"
           [("metric_key", "metric_value")]%string
           [("resource_key", "resource_value")]%string
           "conflict_key" "user_value" "system_value" "system_only" "system_only_value"
           conflictPayload).
  - vm_compute. reflexivity.
  - discriminate.
  - vm_compute. reflexivity.
  - vm_compute. reflexivity.
Defined.

(** * Further properties of the deduplicator *)

#[local] Set Warnings "-clear-no-such-hyp".

Lemma CheckAndMark_mark (pdq_long : (nat -> nat -> bool) -> list nat -> list nat)
    (d : MetricDeduplicator) (name : string) (labelKeys labelValues : list string) (ts : Z) :
  dedup.CheckAndMark pdq_long d name labelKeys labelValues ts
  = markSignature d <$> dedup.hashLabelsTimestamp pdq_long name labelKeys labelValues ts.
Proof.
  unfold dedup.CheckAndMark, markSignature.
  destruct (dedup.hashLabelsTimestamp pdq_long name labelKeys labelValues ts) as [sig|];
    [cbn|reflexivity].
  case_decide; reflexivity.
Qed.

Lemma RevertMark_unmark (pdq_long : (nat -> nat -> bool) -> list nat -> list nat)
    (d : MetricDeduplicator) (name : string) (labelKeys labelValues : list string) (ts : Z) :
  dedup.RevertMark pdq_long d name labelKeys labelValues ts
  = unmarkSignature d <$> dedup.hashLabelsTimestamp pdq_long name labelKeys labelValues ts.
Proof.
  unfold dedup.RevertMark, unmarkSignature.
  destruct (dedup.hashLabelsTimestamp pdq_long name labelKeys labelValues ts); reflexivity.
Qed.

Lemma project_CheckAndMark_mark (pdq_long : (nat -> nat -> bool) -> list nat -> list nat)
    (d : MetricDeduplicator) (name : string) (labelKeys labelValues : list string) :
  dedup_project.CheckAndMark pdq_long d name labelKeys labelValues
  = markSignature d <$> dedup_project.hashLabels pdq_long name labelKeys labelValues.
Proof.
  unfold dedup_project.CheckAndMark, markSignature.
  destruct (dedup_project.hashLabels pdq_long name labelKeys labelValues) as [sig|];
    [cbn|reflexivity].
  case_decide; reflexivity.
Qed.

Lemma project_RevertMark_unmark (pdq_long : (nat -> nat -> bool) -> list nat -> list nat)
    (d : MetricDeduplicator) (name : string) (labelKeys labelValues : list string) (ts : Z) :
  dedup_project.RevertMark pdq_long d name labelKeys labelValues ts
  = unmarkSignature d <$> dedup_project.hashLabels pdq_long name labelKeys labelValues.
Proof.
  unfold dedup_project.RevertMark, unmarkSignature.
  destruct (dedup_project.hashLabels pdq_long name labelKeys labelValues); reflexivity.
Qed.

Lemma size_mark_new (sent : gset Z) (sig : Z) :
  sig ∉ sent -> size ({[sig]} ∪ sent) = S (size sent).
Proof.
  intros Hnew. rewrite size_union by (apply disjoint_singleton_l; exact Hnew).
  rewrite size_singleton. reflexivity.
Qed.

Lemma size_unmark (sent : gset Z) (sig : Z) : (size (sent ∖ {[sig]}) <= size sent)%nat.
Proof.
  apply subseteq_size. intros x Hx. apply elem_of_difference in Hx as [Hx _]. exact Hx.
Qed.

Lemma markSignature_accounted (d : MetricDeduplicator) (sig : Z) :
  accounted d ->
  accounted (markSignature d sig).2 /\
  checksTotal (markSignature d sig).2 = S (checksTotal d).
Proof.
  intros [Hgauge Hcount]. unfold markSignature, accounted.
  case_decide as Hin; cbn; [lia|].
  rewrite (size_mark_new _ _ Hin). lia.
Qed.

Lemma unmarkSignature_accounted (d : MetricDeduplicator) (sig : Z) :
  accounted d ->
  accounted (unmarkSignature d sig) /\
  checksTotal (unmarkSignature d sig) = checksTotal d.
Proof.
  intros [Hgauge Hcount]. unfold unmarkSignature, accounted. cbn.
  pose proof (size_unmark (sentSignatures d) sig). lia.
Qed.

Lemma Reset_accounted (d : MetricDeduplicator) :
  accounted d -> accounted (dedup.Reset d).
Proof.
  intros [Hgauge Hcount]. unfold accounted. cbn. rewrite size_empty. lia.
Qed.

Section Accounting.
Variable pdq_long : (nat -> nat -> bool) -> list nat -> list nat.
Hypothesis contract : sort.SliceContract pdq_long.

Lemma step_accounted (d : MetricDeduplicator) (c : dedup.call) :
  accounted d ->
  exists d', dedup.step pdq_long d c = Some d' /\
             accounted d' /\
             checksTotal d' = (checksTotal d + countCheckAndMark [c])%nat.
Proof.
  intros Hacc. destruct c as [name ks vs ts|name ks vs ts|]; cbn.
  - rewrite CheckAndMark_mark.
    destruct (hashLabelsTimestamp_total pdq_long contract name ks vs ts) as [sig ->]. cbn.
    destruct (markSignature_accounted d sig Hacc) as [Hacc' Hchecks].
    eexists. split; [reflexivity|]. split; [exact Hacc'|]. rewrite Hchecks. lia.
  - rewrite RevertMark_unmark.
    destruct (hashLabelsTimestamp_total pdq_long contract name ks vs ts) as [sig ->]. cbn.
    destruct (unmarkSignature_accounted d sig Hacc) as [Hacc' Hchecks].
    eexists. split; [reflexivity|]. split; [exact Hacc'|]. rewrite Hchecks. lia.
  - eexists. split; [reflexivity|]. split; [apply Reset_accounted, Hacc|]. cbn. lia.
Qed.

Lemma run_accounted (calls : list dedup.call) (d : MetricDeduplicator) :
  accounted d ->
  exists d', dedup.run pdq_long d calls = Some d' /\
             accounted d' /\
             checksTotal d' = (checksTotal d + countCheckAndMark calls)%nat.
Proof.
  revert d. induction calls as [|c calls IH]; intros d Hacc.
  - exists d. cbn. split; [reflexivity|]. split; [exact Hacc|]. lia.
  - destruct (step_accounted d c Hacc) as (d1 & Hstep & Hacc1 & Hchecks1).
    destruct (IH d1 Hacc1) as (d' & Hrun & Hacc' & Hchecks').
    exists d'. cbn [dedup.run]. rewrite Hstep. cbn. split; [exact Hrun|].
    split; [exact Hacc'|]. rewrite Hchecks', Hchecks1.
    unfold countCheckAndMark. cbn. destruct (isCheckAndMark c); cbn; lia.
Qed.

End Accounting.

Lemma New_accounted : accounted dedup.NewMetricDeduplicator.
Proof. unfold accounted. cbn. rewrite size_empty. lia. Qed.

(** X1.  The gauge mirrors the set: after any sequence of
    [CheckAndMark], [RevertMark] and [Reset] calls on a new deduplicator,
    the sequence has run to its end and [uniqueMetricsGauge] equals the
    number of signatures in [sentSignatures]. *)
Theorem gauge_is_size_of_set
    (pdq_long : (nat -> nat -> bool) -> list nat -> list nat)
    (contract : sort.SliceContract pdq_long) (calls : list dedup.call) :
  exists d', dedup.run pdq_long dedup.NewMetricDeduplicator calls = Some d' /\
             uniqueMetricsGauge d' = size (sentSignatures d').
Proof.
  destruct (run_accounted pdq_long contract calls _ New_accounted) as (d' & Hrun & [Hg _] & _).
  exists d'. split; assumption.
Qed.

Lemma gauge_is_size_of_set_witness :
  exists d', dedup.run sort.insertionSort_func dedup.NewMetricDeduplicator resetScenario
             = Some d' /\
             uniqueMetricsGauge d' = size (sentSignatures d').
Proof.
  exact (gauge_is_size_of_set sort.insertionSort_func insertionSort_contract resetScenario).
Defined.

(** X2.  The counters account for every call: after any sequence of
    calls on a new deduplicator, [checksTotal] is the number of
    [CheckAndMark] calls of the sequence, and the duplicates counted plus
    the signatures held never exceed it. *)
Theorem counters_account_for_calls
    (pdq_long : (nat -> nat -> bool) -> list nat -> list nat)
    (contract : sort.SliceContract pdq_long) (calls : list dedup.call) :
  exists d', dedup.run pdq_long dedup.NewMetricDeduplicator calls = Some d' /\
             checksTotal d' = countCheckAndMark calls /\
             (duplicatesTotal d' + size (sentSignatures d') <= checksTotal d')%nat.
Proof.
  destruct (run_accounted pdq_long contract calls _ New_accounted)
    as (d' & Hrun & [_ Hc] & Hchecks).
  exists d'. split; [exact Hrun|]. split; [exact Hchecks|exact Hc].
Qed.

Lemma counters_account_for_calls_witness :
  exists d', dedup.run sort.insertionSort_func dedup.NewMetricDeduplicator resetScenario
             = Some d' /\
             checksTotal d' = countCheckAndMark resetScenario /\
             (duplicatesTotal d' + size (sentSignatures d') <= checksTotal d')%nat.
Proof.
  exact (counters_account_for_calls sort.insertionSort_func insertionSort_contract
           resetScenario).
Defined.

Section MarkAndRevert.
Variable pdq_long : (nat -> nat -> bool) -> list nat -> list nat.
Hypothesis contract : sort.SliceContract pdq_long.

Lemma run_of_checks (calls : list dedup.call) (d : MetricDeduplicator) :
  forallb isCheckAndMark calls = true ->
  exists sigs d',
    mapM (callSignature pdq_long) calls = Some sigs /\
    dedup.run pdq_long d calls = Some d' /\
    sentSignatures d' = list_to_set sigs ∪ sentSignatures d /\
    checksTotal d' = (checksTotal d + length calls)%nat /\
    (duplicatesTotal d' + size (sentSignatures d')
     = duplicatesTotal d + size (sentSignatures d) + length calls)%nat.
Proof.
  revert d. induction calls as [|c calls IH]; intros d Hall.
  - exists [], d. cbn. repeat split; [set_solver|lia|lia].
  - cbn in Hall. apply andb_prop in Hall as [Hc Hall].
    destruct c as [name ks vs ts| |]; try discriminate.
    destruct (hashLabelsTimestamp_total pdq_long contract name ks vs ts) as [sig Hsig].
    destruct (IH (markSignature d sig).2 Hall) as (sigs & d' & Hsigs & Hrun & Hset & Hch & Hacc).
    exists (sig :: sigs), d'.
    split; [cbn; rewrite Hsig; cbn; rewrite Hsigs; reflexivity|].
    split; [cbn; rewrite CheckAndMark_mark, Hsig; cbn; exact Hrun|].
    revert Hset Hch Hacc. unfold markSignature. case_decide as Hin; cbn; intros Hset Hch Hacc.
    + split; [rewrite Hset; set_solver|]. split; lia.
    + split; [rewrite Hset; set_solver|]. rewrite (size_mark_new _ _ Hin) in Hacc.
      split; lia.
Qed.

Lemma CheckAndMark_result (d : MetricDeduplicator) (name : string)
    (labelKeys labelValues : list string) (ts : Z) :
  exists sig,
    dedup.hashLabelsTimestamp pdq_long name labelKeys labelValues ts = Some sig /\
    dedup.CheckAndMark pdq_long d name labelKeys labelValues ts = Some (markSignature d sig) /\
    dedup.RevertMark pdq_long d name labelKeys labelValues ts = Some (unmarkSignature d sig).
Proof.
  destruct (hashLabelsTimestamp_total pdq_long contract name labelKeys labelValues ts)
    as [sig Hsig].
  exists sig. rewrite CheckAndMark_mark, RevertMark_unmark, Hsig. auto.
Qed.

End MarkAndRevert.

(** X3.  No update is lost: after a sequence that consists of
    [CheckAndMark] calls only, on a new deduplicator, the set holds
    exactly the signatures of the calls, [checksTotal] is the number of
    calls, and the duplicates counted are the calls less the distinct
    signatures. *)
Theorem checks_only_accounting
    (pdq_long : (nat -> nat -> bool) -> list nat -> list nat)
    (contract : sort.SliceContract pdq_long) (calls : list dedup.call) :
  forallb isCheckAndMark calls = true ->
  exists sigs d',
    mapM (callSignature pdq_long) calls = Some sigs /\
    dedup.run pdq_long dedup.NewMetricDeduplicator calls = Some d' /\
    sentSignatures d' = list_to_set sigs /\
    checksTotal d' = length calls /\
    (duplicatesTotal d' + size (sentSignatures d') = length calls)%nat.
Proof.
  intros Hall.
  destruct (run_of_checks pdq_long contract calls dedup.NewMetricDeduplicator Hall)
    as (sigs & d' & Hsigs & Hrun & Hset & Hch & Hacc).
  exists sigs, d'. cbn in Hset, Hch, Hacc. rewrite size_empty in Hacc.
  split; [exact Hsigs|]. split; [exact Hrun|].
  split; [rewrite Hset; set_solver|]. split; lia.
Qed.

Lemma checks_only_accounting_witness :
  exists sigs d',
    mapM (callSignature sort.insertionSort_func) twoWorkers = Some sigs /\
    dedup.run sort.insertionSort_func dedup.NewMetricDeduplicator twoWorkers = Some d' /\
    sentSignatures d' = list_to_set sigs /\
    checksTotal d' = length twoWorkers /\
    (duplicatesTotal d' + size (sentSignatures d') = length twoWorkers)%nat.
Proof.
  apply (checks_only_accounting sort.insertionSort_func insertionSort_contract twoWorkers).
  reflexivity.
Defined.

(** X4.  [RevertMark] undoes a [CheckAndMark] that marked: when the
    signature of a sample is not in the set, [CheckAndMark] followed by
    [RevertMark] with the same arguments leaves the set as it was and the
    gauge at its size; the check stays counted. *)
Theorem RevertMark_undoes_CheckAndMark
    (pdq_long : (nat -> nat -> bool) -> list nat -> list nat)
    (contract : sort.SliceContract pdq_long)
    (d : MetricDeduplicator) (name : string) (labelKeys labelValues : list string) (ts : Z) :
  (forall sig, dedup.hashLabelsTimestamp pdq_long name labelKeys labelValues ts = Some sig ->
               sig ∉ sentSignatures d) ->
  exists d1 d2,
    dedup.CheckAndMark pdq_long d name labelKeys labelValues ts = Some (false, d1) /\
    dedup.RevertMark pdq_long d1 name labelKeys labelValues ts = Some d2 /\
    sentSignatures d2 = sentSignatures d /\
    uniqueMetricsGauge d2 = size (sentSignatures d) /\
    checksTotal d2 = S (checksTotal d) /\
    duplicatesTotal d2 = duplicatesTotal d.
Proof.
  intros Hfresh.
  destruct (CheckAndMark_result pdq_long contract d name labelKeys labelValues ts)
    as (sig & Hsig & Hmark & _).
  specialize (Hfresh sig Hsig).
  unfold markSignature in Hmark. rewrite decide_False in Hmark by exact Hfresh.
  assert (({[sig]} ∪ sentSignatures d) ∖ {[sig]} = sentSignatures d) as Heq by set_solver.
  eexists _, _. split; [exact Hmark|].
  rewrite RevertMark_unmark, Hsig. unfold unmarkSignature. cbn.
  split; [reflexivity|]. cbn. rewrite Heq. auto.
Qed.

Lemma RevertMark_undoes_CheckAndMark_witness :
  exists d1 d2,
    dedup.CheckAndMark sort.insertionSort_func dedup.NewMetricDeduplicator "test_metric"
      ["label1"]%string ["value1"]%string 1694174400000000000 = Some (false, d1) /\
    dedup.RevertMark sort.insertionSort_func d1 "test_metric"
      ["label1"]%string ["value1"]%string 1694174400000000000 = Some d2 /\
    sentSignatures d2 = sentSignatures dedup.NewMetricDeduplicator /\
    uniqueMetricsGauge d2 = size (sentSignatures dedup.NewMetricDeduplicator) /\
    checksTotal d2 = S (checksTotal dedup.NewMetricDeduplicator) /\
    duplicatesTotal d2 = duplicatesTotal dedup.NewMetricDeduplicator.
Proof.
  apply (RevertMark_undoes_CheckAndMark sort.insertionSort_func insertionSort_contract
           dedup.NewMetricDeduplicator "test_metric" ["label1"]%string ["value1"]%string
           1694174400000000000).
  intros sig _. cbn. apply not_elem_of_empty.
Defined.

(** X5.  [RevertMark] of a sample whose signature is not in the set
    leaves the set and both counters as they are and sets the gauge to
    the size of the set; a second [RevertMark] with the same arguments
    changes nothing at all. *)
Theorem RevertMark_absent
    (pdq_long : (nat -> nat -> bool) -> list nat -> list nat)
    (contract : sort.SliceContract pdq_long)
    (d : MetricDeduplicator) (fqName : string) (labelKeys labelValues : list string) (ts : Z) :
  (forall sig, dedup.hashLabelsTimestamp pdq_long fqName labelKeys labelValues ts = Some sig ->
               sig ∉ sentSignatures d) ->
  exists d1,
    dedup.RevertMark pdq_long d fqName labelKeys labelValues ts = Some d1 /\
    sentSignatures d1 = sentSignatures d /\
    uniqueMetricsGauge d1 = size (sentSignatures d) /\
    checksTotal d1 = checksTotal d /\
    duplicatesTotal d1 = duplicatesTotal d /\
    dedup.RevertMark pdq_long d1 fqName labelKeys labelValues ts = Some d1.
Proof.
  intros Habsent.
  destruct (CheckAndMark_result pdq_long contract d fqName labelKeys labelValues ts)
    as (sig & Hsig & _ & Hrevert).
  specialize (Habsent sig Hsig).
  assert (sentSignatures d ∖ {[sig]} = sentSignatures d) as Heq by set_solver.
  exists (unmarkSignature d sig). rewrite Hrevert, RevertMark_unmark, Hsig.
  unfold unmarkSignature. cbn. rewrite !Heq. auto 10.
Qed.

Lemma RevertMark_absent_witness :
  exists d1,
    dedup.RevertMark sort.insertionSort_func dedup.NewMetricDeduplicator "test_metric"
      ["label1"]%string ["value1"]%string 1694174400000000000 = Some d1 /\
    sentSignatures d1 = sentSignatures dedup.NewMetricDeduplicator /\
    uniqueMetricsGauge d1 = size (sentSignatures dedup.NewMetricDeduplicator) /\
    checksTotal d1 = checksTotal dedup.NewMetricDeduplicator /\
    duplicatesTotal d1 = duplicatesTotal dedup.NewMetricDeduplicator /\
    dedup.RevertMark sort.insertionSort_func d1 "test_metric"
      ["label1"]%string ["value1"]%string 1694174400000000000 = Some d1.
Proof.
  apply (RevertMark_absent sort.insertionSort_func insertionSort_contract
           dedup.NewMetricDeduplicator "test_metric" ["label1"]%string ["value1"]%string
           1694174400000000000).
  intros sig _. cbn. apply not_elem_of_empty.
Defined.

(** X6.  After [RevertMark] the sample is new again: whatever the state
    and whoever marked the signature, the [CheckAndMark] that follows a
    [RevertMark] with the same arguments returns false. *)
Theorem CheckAndMark_after_RevertMark
    (pdq_long : (nat -> nat -> bool) -> list nat -> list nat)
    (contract : sort.SliceContract pdq_long)
    (d : MetricDeduplicator) (name : string) (labelKeys labelValues : list string) (ts : Z) :
  exists d1 d2,
    dedup.RevertMark pdq_long d name labelKeys labelValues ts = Some d1 /\
    dedup.CheckAndMark pdq_long d1 name labelKeys labelValues ts = Some (false, d2).
Proof.
  destruct (CheckAndMark_result pdq_long contract d name labelKeys labelValues ts)
    as (sig & Hsig & _ & Hrevert).
  exists (unmarkSignature d sig). eexists. split; [exact Hrevert|].
  rewrite CheckAndMark_mark, Hsig. cbn. unfold markSignature.
  rewrite decide_False by (cbn; set_solver). reflexivity.
Qed.

Lemma CheckAndMark_after_RevertMark_witness :
  exists d1 d2,
    dedup.RevertMark sort.insertionSort_func (mkMetricDeduplicator {[ 7 ]} 1 3 1)
      "test_metric" ["label1"]%string ["value1"]%string 1694174400000000000 = Some d1 /\
    dedup.CheckAndMark sort.insertionSort_func d1 "test_metric"
      ["label1"]%string ["value1"]%string 1694174400000000000 = Some (false, d2).
Proof.
  exact (CheckAndMark_after_RevertMark sort.insertionSort_func insertionSort_contract
           (mkMetricDeduplicator {[ 7 ]} 1 3 1) "test_metric" ["label1"]%string
           ["value1"]%string 1694174400000000000).
Defined.

(** X7.  Other samples are left alone: [CheckAndMark] removes no
    signature from the set, and neither [CheckAndMark] nor [RevertMark]
    changes whether a signature other than the one it computed is in the
    set. *)
Theorem other_signatures_untouched
    (pdq_long : (nat -> nat -> bool) -> list nat -> list nat)
    (contract : sort.SliceContract pdq_long)
    (d : MetricDeduplicator) (name : string) (labelKeys labelValues : list string) (ts : Z) :
  exists sig r d2,
    dedup.hashLabelsTimestamp pdq_long name labelKeys labelValues ts = Some sig /\
    dedup.CheckAndMark pdq_long d name labelKeys labelValues ts = Some r /\
    dedup.RevertMark pdq_long d name labelKeys labelValues ts = Some d2 /\
    sentSignatures d ⊆ sentSignatures r.2 /\
    (forall other, other <> sig ->
       (other ∈ sentSignatures r.2 <-> other ∈ sentSignatures d) /\
       (other ∈ sentSignatures d2 <-> other ∈ sentSignatures d)).
Proof.
  destruct (CheckAndMark_result pdq_long contract d name labelKeys labelValues ts)
    as (sig & Hsig & Hmark & Hrevert).
  exists sig, (markSignature d sig), (unmarkSignature d sig).
  split; [exact Hsig|]. split; [exact Hmark|]. split; [exact Hrevert|].
  unfold markSignature, unmarkSignature. case_decide; cbn; split; set_solver.
Qed.

Lemma other_signatures_untouched_witness :
  exists sig r d2,
    dedup.hashLabelsTimestamp sort.insertionSort_func "test_metric"
      ["label1"]%string ["value1"]%string 1694174400000000000 = Some sig /\
    dedup.CheckAndMark sort.insertionSort_func (mkMetricDeduplicator {[ 7 ]} 1 3 1)
      "test_metric" ["label1"]%string ["value1"]%string 1694174400000000000 = Some r /\
    dedup.RevertMark sort.insertionSort_func (mkMetricDeduplicator {[ 7 ]} 1 3 1)
      "test_metric" ["label1"]%string ["value1"]%string 1694174400000000000 = Some d2 /\
    sentSignatures (mkMetricDeduplicator {[ 7 ]} 1 3 1) ⊆ sentSignatures r.2 /\
    (forall other, other <> sig ->
       (other ∈ sentSignatures r.2 <-> other ∈ sentSignatures (mkMetricDeduplicator {[ 7 ]} 1 3 1)) /\
       (other ∈ sentSignatures d2 <-> other ∈ sentSignatures (mkMetricDeduplicator {[ 7 ]} 1 3 1))).
Proof.
  exact (other_signatures_untouched sort.insertionSort_func insertionSort_contract
           (mkMetricDeduplicator {[ 7 ]} 1 3 1) "test_metric" ["label1"]%string
           ["value1"]%string 1694174400000000000).
Defined.

(** X8.  A sample is a duplicate in any label order: once a sample has
    gone through [CheckAndMark], a call with the same name and timestamp
    and the same labels in any other order returns true, provided no key
    carries two different values. *)
Theorem duplicate_in_any_label_order
    (pdq_long : (nat -> nat -> bool) -> list nat -> list nat)
    (contract : sort.SliceContract pdq_long)
    (d : MetricDeduplicator) (name : string) (ts : Z) (labels labels' : list (string * string)) :
  keysDetermineValues labels -> labels ≡ₚ labels' ->
  exists r d2,
    dedup.CheckAndMark pdq_long d name labels.*1 labels.*2 ts = Some r /\
    dedup.CheckAndMark pdq_long r.2 name labels'.*1 labels'.*2 ts = Some (true, d2).
Proof.
  intros Hdet Hperm.
  pose proof (hashNameAndLabels_perm pdq_long contract name _ _ Hdet Hperm) as Heq.
  destruct (hashLabelsTimestamp_total pdq_long contract name labels.*1 labels.*2 ts)
    as [sig Hsig].
  assert (dedup.hashLabelsTimestamp pdq_long name labels'.*1 labels'.*2 ts = Some sig)
    as Hsig'.
  { rewrite hashLabelsTimestamp_eq, <- Heq, <- hashLabelsTimestamp_eq. exact Hsig. }
  exists (markSignature d sig). eexists.
  rewrite !CheckAndMark_mark, Hsig, Hsig'. cbn. split; [reflexivity|].
  unfold markSignature at 1.
  rewrite decide_True; [reflexivity|].
  unfold markSignature. case_decide; cbn; set_solver.
Qed.

Lemma duplicate_in_any_label_order_witness :
  exists r d2,
    dedup.CheckAndMark sort.insertionSort_func dedup.NewMetricDeduplicator "test_metric"
      ["b"; "a"; "c"]%string ["val_b"; "val_a"; "val_c"]%string 1694174400000000000
    = Some r /\
    dedup.CheckAndMark sort.insertionSort_func r.2 "test_metric"
      ["a"; "b"; "c"]%string ["val_a"; "val_b"; "val_c"]%string 1694174400000000000
    = Some (true, d2).
Proof.
  apply (duplicate_in_any_label_order sort.insertionSort_func insertionSort_contract
           dedup.NewMetricDeduplicator "test_metric" 1694174400000000000
           [("b", "val_b"); ("a", "val_a"); ("c", "val_c")]%string
           [("a", "val_a"); ("b", "val_b"); ("c", "val_c")]%string).
  - apply NoDup_keysDetermineValues. cbn. distinct_keys.
  - apply perm_swap.
Defined.

(** ** Values that are never read *)

Lemma hashSortedLabels_take (labelKeys labelValues : list string) (indices : list nat) (h : Z) :
  Forall (fun idx => (idx < length labelKeys)%nat) indices ->
  hashSortedLabels labelKeys (take (length labelKeys) labelValues) h indices
  = hashSortedLabels labelKeys labelValues h indices.
Proof.
  intros Hall. revert h. induction Hall as [|idx indices Hidx Hall IH]; intros h; [reflexivity|].
  cbn [hashSortedLabels]. unfold hashLabel.
  rewrite lookup_take_lt by exact Hidx.
  destruct (labelKeys !! idx); cbn; [apply IH|reflexivity].
Qed.

(** X9.  Surplus values are never read: the signature of a sample looks
    at the first [len(labelKeys)] values only, and with no label keys it
    looks at no value at all. *)
Theorem surplus_values_ignored
    (pdq_long : (nat -> nat -> bool) -> list nat -> list nat)
    (contract : sort.SliceContract pdq_long)
    (fqName : string) (labelKeys labelValues : list string) (ts : Z) :
  dedup.hashLabelsTimestamp pdq_long fqName labelKeys labelValues ts
  = dedup.hashLabelsTimestamp pdq_long fqName labelKeys
      (take (length labelKeys) labelValues) ts /\
  dedup_project.hashLabels pdq_long fqName labelKeys labelValues
  = dedup_project.hashLabels pdq_long fqName labelKeys (take (length labelKeys) labelValues) /\
  dedup.hashLabelsTimestamp pdq_long fqName [] labelValues ts
  = Some (hash.AddUint64 (hashName fqName) (uint64_of_int64 ts)).
Proof.
  assert (hashNameAndLabels pdq_long fqName labelKeys (take (length labelKeys) labelValues)
          = hashNameAndLabels pdq_long fqName labelKeys labelValues) as Heq.
  { unfold hashNameAndLabels. case_decide; [|reflexivity].
    apply hashSortedLabels_take, sortedIndices_bound, contract. }
  split; [|split].
  - rewrite (hashLabelsTimestamp_eq _ _ _ labelValues).
    rewrite (hashLabelsTimestamp_eq _ _ _ (take _ labelValues)). rewrite Heq. reflexivity.
  - rewrite (hashLabels_eq _ _ _ labelValues), (hashLabels_eq _ _ _ (take _ labelValues)).
    rewrite Heq. reflexivity.
  - reflexivity.
Qed.

Lemma surplus_values_ignored_witness :
  dedup.hashLabelsTimestamp sort.insertionSort_func "test_metric" ["label1"]%string
    ["value1"; "stray"]%string 1694174400000000000
  = dedup.hashLabelsTimestamp sort.insertionSort_func "test_metric" ["label1"]%string
      (take (length ["label1"]%string) ["value1"; "stray"]%string) 1694174400000000000 /\
  dedup_project.hashLabels sort.insertionSort_func "test_metric" ["label1"]%string
    ["value1"; "stray"]%string
  = dedup_project.hashLabels sort.insertionSort_func "test_metric" ["label1"]%string
      (take (length ["label1"]%string) ["value1"; "stray"]%string) /\
  dedup.hashLabelsTimestamp sort.insertionSort_func "test_metric" []
    ["value1"; "stray"]%string 1694174400000000000
  = Some (hash.AddUint64 (hashName "test_metric") (uint64_of_int64 1694174400000000000)).
Proof.
  exact (surplus_values_ignored sort.insertionSort_func insertionSort_contract
           "test_metric" ["label1"]%string ["value1"; "stray"]%string 1694174400000000000).
Defined.

(** X10.  What the signature is: for labels in which no key carries two
    different values, [hashLabels] returns the accumulator that folds,
    after the name and its separator, key, separator, value, separator of
    each label of ANY listing of the labels in ascending key order; and
    [hashLabelsTimestamp] returns that with the timestamp folded in. *)
Theorem signature_is_fold_over_sorted_labels
    (pdq_long : (nat -> nat -> bool) -> list nat -> list nat)
    (contract : sort.SliceContract pdq_long)
    (fqName : string) (ts : Z) (labels sorted : list (string * string)) :
  keysDetermineValues labels ->
  labels ≡ₚ sorted ->
  StronglySorted (fun p q => string_lt q.1 p.1 = false) sorted ->
  dedup_project.hashLabels pdq_long fqName labels.*1 labels.*2
  = Some (fold_left (fun h p => foldLabel h p.1 (Some p.2)) sorted (hashName fqName)) /\
  dedup.hashLabelsTimestamp pdq_long fqName labels.*1 labels.*2 ts
  = Some (hash.AddUint64
            (fold_left (fun h p => foldLabel h p.1 (Some p.2)) sorted (hashName fqName))
            (uint64_of_int64 ts)).
Proof.
  intros Hdet Hperm Hsorted.
  assert (visited pdq_long labels = sorted) as Hvis.
  { apply (StronglySorted_unique_strong (fun p q => string_lt q.1 p.1 = false)).
    - intros p q Hp Hq Hpq Hqp. apply Hdet.
      + rewrite <- (visited_perm pdq_long contract labels). exact Hp.
      + rewrite Hperm. exact Hq.
      + apply string_lt_total; assumption.
    - apply visited_sorted, contract.
    - exact Hsorted.
    - rewrite (visited_perm pdq_long contract). exact Hperm. }
  rewrite hashLabelsTimestamp_eq, hashLabels_eq.
  rewrite (hashNameAndLabels_visited pdq_long contract), Hvis. split; reflexivity.
Qed.

Lemma signature_is_fold_over_sorted_labels_witness :
  dedup_project.hashLabels sort.insertionSort_func "test_metric"
    ["b"; "a"]%string ["val_b"; "val_a"]%string
  = Some (fold_left (fun h p => foldLabel h p.1 (Some p.2))
            [("a", "val_a"); ("b", "val_b")]%string (hashName "test_metric")) /\
  dedup.hashLabelsTimestamp sort.insertionSort_func "test_metric"
    ["b"; "a"]%string ["val_b"; "val_a"]%string 1694174400000000000
  = Some (hash.AddUint64
            (fold_left (fun h p => foldLabel h p.1 (Some p.2))
               [("a", "val_a"); ("b", "val_b")]%string (hashName "test_metric"))
            (uint64_of_int64 1694174400000000000)).
Proof.
  apply (signature_is_fold_over_sorted_labels sort.insertionSort_func insertionSort_contract
           "test_metric" 1694174400000000000
           [("b", "val_b"); ("a", "val_a")]%string
           [("a", "val_a"); ("b", "val_b")]%string).
  - apply NoDup_keysDetermineValues. cbn. distinct_keys.
  - apply perm_swap.
  - repeat constructor.
Defined.

(** * Further properties of the project-labelled deduplicator *)

Section ProjectAccounting.
Variable pdq_long : (nat -> nat -> bool) -> list nat -> list nat.
Hypothesis contract : sort.SliceContract pdq_long.

Lemma hashLabels_total (name : string) (labelKeys labelValues : list string) :
  is_Some (dedup_project.hashLabels pdq_long name labelKeys labelValues).
Proof. rewrite hashLabels_eq. apply hashNameAndLabels_total, contract. Qed.

Lemma projectStep_accounted (d : MetricDeduplicator) (c : projectCall) :
  accounted d ->
  exists d', projectStep pdq_long d c = Some d' /\
             accounted d' /\
             checksTotal d' = (checksTotal d + countProjectCheckAndMark [c])%nat.
Proof.
  intros Hacc. destruct c as [name ks vs|name ks vs ts|]; cbn.
  - rewrite project_CheckAndMark_mark.
    destruct (hashLabels_total name ks vs) as [sig ->]. cbn.
    destruct (markSignature_accounted d sig Hacc) as [Hacc' Hchecks].
    eexists. split; [reflexivity|]. split; [exact Hacc'|]. rewrite Hchecks. lia.
  - rewrite project_RevertMark_unmark.
    destruct (hashLabels_total name ks vs) as [sig ->]. cbn.
    destruct (unmarkSignature_accounted d sig Hacc) as [Hacc' Hchecks].
    eexists. split; [reflexivity|]. split; [exact Hacc'|]. rewrite Hchecks. lia.
  - eexists. split; [reflexivity|]. split; [apply Reset_accounted, Hacc|]. cbn. lia.
Qed.

Lemma projectRun_accounted (calls : list projectCall) (d : MetricDeduplicator) :
  accounted d ->
  exists d', projectRun pdq_long d calls = Some d' /\
             accounted d' /\
             checksTotal d' = (checksTotal d + countProjectCheckAndMark calls)%nat.
Proof.
  revert d. induction calls as [|c calls IH]; intros d Hacc.
  - exists d. cbn. split; [reflexivity|]. split; [exact Hacc|]. lia.
  - destruct (projectStep_accounted d c Hacc) as (d1 & Hstep & Hacc1 & Hchecks1).
    destruct (IH d1 Hacc1) as (d' & Hrun & Hacc' & Hchecks').
    exists d'. cbn [projectRun]. rewrite Hstep. cbn. split; [exact Hrun|].
    split; [exact Hacc'|]. rewrite Hchecks', Hchecks1.
    unfold countProjectCheckAndMark. cbn. destruct (isProjectCheckAndMark c); cbn; lia.
Qed.

End ProjectAccounting.

(** X11.  The project-labelled deduplicator keeps its books: after any
    sequence of [CheckAndMark], [RevertMark] and [Reset] calls on a new
    deduplicator of any project, the sequence has run to its end, the
    gauge is the size of the set, [checksTotal] is the number of
    [CheckAndMark] calls, and duplicates plus signatures held do not
    exceed it. *)
Theorem project_books_kept
    (pdq_long : (nat -> nat -> bool) -> list nat -> list nat)
    (contract : sort.SliceContract pdq_long) (projectID : string) (calls : list projectCall) :
  exists d', projectRun pdq_long (dedup_project.NewMetricDeduplicator projectID) calls
             = Some d' /\
             uniqueMetricsGauge d' = size (sentSignatures d') /\
             checksTotal d' = countProjectCheckAndMark calls /\
             (duplicatesTotal d' + size (sentSignatures d') <= checksTotal d')%nat.
Proof.
  destruct (projectRun_accounted pdq_long contract calls
              (dedup_project.NewMetricDeduplicator projectID) New_accounted)
    as (d' & Hrun & [Hg Hc] & Hchecks).
  exists d'. auto.
Qed.

Lemma project_books_kept_witness :
  exists d', projectRun sort.insertionSort_func
               (dedup_project.NewMetricDeduplicator "test_project") projectScenario
             = Some d' /\
             uniqueMetricsGauge d' = size (sentSignatures d') /\
             checksTotal d' = countProjectCheckAndMark projectScenario /\
             (duplicatesTotal d' + size (sentSignatures d') <= checksTotal d')%nat.
Proof.
  exact (project_books_kept sort.insertionSort_func insertionSort_contract
           "test_project" projectScenario).
Defined.

(** X12.  In the project-labelled deduplicator a [RevertMark] at any
    instant undoes the mark of a sample: when the signature is not in the
    set, [CheckAndMark] followed by [RevertMark] of the same name and
    labels, whatever its timestamp, leaves the set as it was, and the
    next [CheckAndMark] returns false again. *)
Theorem project_RevertMark_undoes_CheckAndMark
    (pdq_long : (nat -> nat -> bool) -> list nat -> list nat)
    (contract : sort.SliceContract pdq_long)
    (d : MetricDeduplicator) (name : string) (labelKeys labelValues : list string) (ts : Z) :
  (forall sig, dedup_project.hashLabels pdq_long name labelKeys labelValues = Some sig ->
               sig ∉ sentSignatures d) ->
  exists d1 d2 d3,
    dedup_project.CheckAndMark pdq_long d name labelKeys labelValues = Some (false, d1) /\
    dedup_project.RevertMark pdq_long d1 name labelKeys labelValues ts = Some d2 /\
    sentSignatures d2 = sentSignatures d /\
    dedup_project.CheckAndMark pdq_long d2 name labelKeys labelValues = Some (false, d3).
Proof.
  intros Hfresh.
  destruct (hashLabels_total pdq_long contract name labelKeys labelValues) as [sig Hsig].
  specialize (Hfresh sig Hsig).
  assert (({[sig]} ∪ sentSignatures d) ∖ {[sig]} = sentSignatures d) as Heq by set_solver.
  eexists _, _, _.
  rewrite project_CheckAndMark_mark, Hsig. cbn. unfold markSignature at 1.
  rewrite decide_False by exact Hfresh. split; [reflexivity|].
  rewrite project_RevertMark_unmark, Hsig. cbn. split; [reflexivity|].
  unfold unmarkSignature. cbn. split; [exact Heq|].
  rewrite project_CheckAndMark_mark, Hsig. cbn. unfold markSignature. cbn.
  rewrite decide_False by (rewrite Heq; exact Hfresh). reflexivity.
Qed.

Lemma project_RevertMark_undoes_CheckAndMark_witness :
  exists d1 d2 d3,
    dedup_project.CheckAndMark sort.insertionSort_func
      (dedup_project.NewMetricDeduplicator "test_project") "benchmark_metric"
      ["region"]%string ["us-central1"]%string = Some (false, d1) /\
    dedup_project.RevertMark sort.insertionSort_func d1 "benchmark_metric"
      ["region"]%string ["us-central1"]%string 1694174400000000000 = Some d2 /\
    sentSignatures d2 = sentSignatures (dedup_project.NewMetricDeduplicator "test_project") /\
    dedup_project.CheckAndMark sort.insertionSort_func d2 "benchmark_metric"
      ["region"]%string ["us-central1"]%string = Some (false, d3).
Proof.
  apply (project_RevertMark_undoes_CheckAndMark sort.insertionSort_func
           insertionSort_contract (dedup_project.NewMetricDeduplicator "test_project")
           "benchmark_metric" ["region"]%string ["us-central1"]%string 1694174400000000000).
  intros sig _. cbn. apply not_elem_of_empty.
Defined.

(** * Further properties of the label assembly *)

Lemma findKeyIndex_first (keys : list string) (key : string) (i : nat) :
  labels.findKeyIndex keys key = Some i ->
  keys !! i = Some key /\ forall j, (j < i)%nat -> keys !! j <> Some key.
Proof.
  revert i. induction keys as [|k keys IH]; intros i; cbn; [discriminate|].
  destruct (String.eqb_spec k key) as [->|Hne].
  - intros [= <-]. split; [reflexivity|]. intros j Hj. lia.
  - destruct (labels.findKeyIndex keys key) as [i'|]; cbn; [|discriminate].
    intros [= <-]. destruct (IH i' eq_refl) as [Hat Hbefore].
    split; [exact Hat|]. intros [|j] Hj; cbn.
    + congruence.
    + apply Hbefore. lia.
Qed.

Lemma findKeyIndex_None (keys : list string) (key : string) :
  labels.findKeyIndex keys key = None <-> key ∉ keys.
Proof.
  induction keys as [|k keys IH]; cbn.
  - split; [intros _; apply not_elem_of_nil|reflexivity].
  - rewrite not_elem_of_cons. destruct (String.eqb_spec k key) as [->|Hne].
    + split; [discriminate|]. intros [Hne _]. congruence.
    + destruct (labels.findKeyIndex keys key) as [i|]; cbn.
      * split; [discriminate|]. intros [_ Hnot]. apply IH in Hnot. discriminate.
      * split; [|reflexivity]. intros _. split; [congruence|]. apply IH. reflexivity.
Qed.

Lemma keyExists_elem_of (keys : list string) (key : string) :
  labels.keyExists keys key = true <-> key ∈ keys.
Proof.
  unfold labels.keyExists.
  destruct (labels.findKeyIndex keys key) as [i|] eqn:E.
  - split; [|reflexivity]. intros _.
    apply findKeyIndex_first in E as [Hat _]. eapply list_elem_of_lookup_2, Hat.
  - split; [discriminate|]. intros Hin. apply findKeyIndex_None in E. contradiction.
Qed.

Lemma keyExists_false (keys : list string) (key : string) :
  labels.keyExists keys key = false <-> key ∉ keys.
Proof.
  rewrite <- keyExists_elem_of. destruct (labels.keyExists keys key); split; congruence.
Qed.

(** X13.  [findKeyIndex] finds the first occurrence: the index it
    returns holds the key and no smaller index does, and it returns the
    not-found sentinel exactly when the key is not among the keys; so
    [keyExists] is membership, the empty key included. *)
Theorem findKeyIndex_first_occurrence (keys : list string) (key : string) :
  match labels.findKeyIndex keys key with
  | Some i => keys !! i = Some key /\ forall j, (j < i)%nat -> keys !! j <> Some key
  | None => key ∉ keys
  end /\
  (labels.keyExists keys key = true <-> key ∈ keys).
Proof.
  split; [|apply keyExists_elem_of].
  destruct (labels.findKeyIndex keys key) as [i|] eqn:E.
  - apply findKeyIndex_first, E.
  - apply findKeyIndex_None, E.
Qed.

Lemma labelValue_is_Some (ls : labels.labelSet) (key : string) :
  length ls.1 = length ls.2 ->
  labels.keyExists ls.1 key = true -> is_Some (labels.labelValue ls key).
Proof.
  intros Hlen. unfold labels.keyExists, labels.labelValue.
  destruct (labels.findKeyIndex ls.1 key) as [i|] eqn:E; [|discriminate].
  intros _. cbn. apply lookup_lt_is_Some_2. rewrite <- Hlen.
  apply (findKeyIndex_bound _ _ _ E).
Qed.

Lemma labelValue_absent (ls : labels.labelSet) (key : string) :
  labels.keyExists ls.1 key = false -> labels.labelValue ls key = None.
Proof.
  unfold labels.keyExists, labels.labelValue.
  destruct (labels.findKeyIndex ls.1 key); [discriminate|reflexivity].
Qed.

Lemma labelValue_appendIfAbsent (ls : labels.labelSet) (kv : string * string) (key : string) :
  length ls.1 = length ls.2 ->
  labels.labelValue (labels.appendIfAbsent ls kv) key
  = orElse (labels.labelValue ls key) (if String.eqb kv.1 key then Some kv.2 else None).
Proof.
  intros Hlen. unfold labels.appendIfAbsent.
  destruct (labels.keyExists ls.1 kv.1) eqn:Hex.
  - destruct (String.eqb_spec kv.1 key) as [<-|Hne].
    + destruct (labelValue_is_Some ls kv.1 Hlen Hex) as [v ->]. reflexivity.
    + destruct (labels.labelValue ls key); reflexivity.
  - destruct (String.eqb_spec kv.1 key) as [<-|Hne].
    + rewrite (labelValue_absent ls kv.1 Hex). cbn.
      apply labelValue_appended; assumption.
    + destruct (labels.keyExists ls.1 key) eqn:Hkey.
      * destruct (labelValue_is_Some ls key Hlen Hkey) as [v Hv]. rewrite Hv. cbn.
        apply labelValue_app; assumption.
      * rewrite (labelValue_absent ls key Hkey). unfold orElse.
        apply (labelValue_absent (ls.1 ++ [kv.1], ls.2 ++ [kv.2])).
        cbn. apply keyExists_app_other; assumption.
Qed.

Lemma labelValue_asLabelSet_cons (kv : string * string) (m : list (string * string))
    (key : string) :
  labels.labelValue (asLabelSet (kv :: m)) key
  = orElse (if String.eqb kv.1 key then Some kv.2 else None)
      (labels.labelValue (asLabelSet m) key).
Proof.
  unfold labels.labelValue, asLabelSet. cbn.
  destruct (String.eqb kv.1 key); [reflexivity|].
  destruct (labels.findKeyIndex m.*1 key); reflexivity.
Qed.

Lemma orElse_assoc {A : Type} (a b c : option A) :
  orElse (orElse a b) c = orElse a (orElse b c).
Proof. destruct a; reflexivity. Qed.

Lemma labelValue_addLabels (m : list (string * string)) (ls : labels.labelSet) (key : string) :
  length ls.1 = length ls.2 ->
  labels.labelValue (labels.addLabels m ls) key
  = orElse (labels.labelValue ls key) (labels.labelValue (asLabelSet m) key).
Proof.
  unfold labels.addLabels. revert ls. induction m as [|kv m IH]; intros ls Hlen.
  - cbn. destruct (labels.labelValue ls key); reflexivity.
  - cbn [fold_left]. rewrite IH by (apply appendIfAbsent_lengths, Hlen).
    rewrite (labelValue_appendIfAbsent ls kv key Hlen), labelValue_asLabelSet_cons.
    apply orElse_assoc.
Qed.

Lemma appendIfAbsent_wellFormed (ls : labels.labelSet) (kv : string * string) :
  wellFormed ls ->
  wellFormed (labels.appendIfAbsent ls kv) /\
  ls.1 `prefix_of` (labels.appendIfAbsent ls kv).1 /\
  ls.2 `prefix_of` (labels.appendIfAbsent ls kv).2 /\
  (forall key, key ∈ (labels.appendIfAbsent ls kv).1 <-> key ∈ ls.1 \/ key = kv.1).
Proof.
  intros [Hlen Hnd]. unfold labels.appendIfAbsent.
  destruct (labels.keyExists ls.1 kv.1) eqn:Hex.
  - split; [split; assumption|]. split; [reflexivity|]. split; [reflexivity|].
    intros key. split; [auto|]. intros [H| ->]; [exact H|].
    apply keyExists_elem_of, Hex.
  - unfold wellFormed. cbn. split; [split|].
    + rewrite !length_app, Hlen. reflexivity.
    + apply NoDup_app. split; [exact Hnd|]. split; [|apply NoDup_singleton].
      intros x Hx Hx'. apply list_elem_of_singleton in Hx'. subst x.
      apply keyExists_false in Hex. contradiction.
    + split; [apply prefix_app_r; reflexivity|]. split; [apply prefix_app_r; reflexivity|].
      intros key. rewrite elem_of_app, list_elem_of_singleton. reflexivity.
Qed.

Lemma addLabels_wellFormed (m : list (string * string)) (ls : labels.labelSet) :
  wellFormed ls ->
  wellFormed (labels.addLabels m ls) /\
  ls.1 `prefix_of` (labels.addLabels m ls).1 /\
  ls.2 `prefix_of` (labels.addLabels m ls).2 /\
  (forall key, key ∈ (labels.addLabels m ls).1 <-> key ∈ ls.1 \/ key ∈ m.*1).
Proof.
  unfold labels.addLabels. revert ls. induction m as [|kv m IH]; intros ls Hwf.
  - cbn. split; [exact Hwf|]. split; [reflexivity|]. split; [reflexivity|].
    intros key. rewrite elem_of_nil. tauto.
  - cbn [fold_left].
    destruct (appendIfAbsent_wellFormed ls kv Hwf) as (Hwf1 & Hp1 & Hp2 & Hin1).
    destruct (IH _ Hwf1) as (Hwf' & Hp1' & Hp2' & Hin').
    split; [exact Hwf'|]. split; [etrans; eassumption|]. split; [etrans; eassumption|].
    intros key. rewrite Hin', Hin1. cbn. rewrite elem_of_cons. intuition.
Qed.

(** X14.  Appending a label source keeps the label set in shape: with
    parallel keys and values and no repeated key before, they are so
    after; the labels already present stay where they are, unchanged, as
    a prefix; and the keys afterwards are the keys before together with
    the keys of the source. *)
Theorem addLabels_keeps_shape (m : list (string * string)) (ls : labels.labelSet) :
  wellFormed ls ->
  wellFormed (labels.addLabels m ls) /\
  ls.1 `prefix_of` (labels.addLabels m ls).1 /\
  ls.2 `prefix_of` (labels.addLabels m ls).2 /\
  (forall key, key ∈ (labels.addLabels m ls).1 <-> key ∈ ls.1 \/ key ∈ m.*1).
Proof. apply addLabels_wellFormed. Qed.

Lemma unit_wellFormed (unitLabel : string) : wellFormed (["unit"%string], [unitLabel]).
Proof. split; [reflexivity|]. cbn. apply NoDup_singleton. Qed.

Lemma addLabels_keeps_shape_witness :
  wellFormed (labels.addLabels [("region", "us-west1"); ("app", "frontend")]%string
                (["unit"], ["count"])%string) /\
  ["unit"%string] `prefix_of`
    (labels.addLabels [("region", "us-west1"); ("app", "frontend")]%string
       (["unit"], ["count"])%string).1 /\
  ["count"%string] `prefix_of`
    (labels.addLabels [("region", "us-west1"); ("app", "frontend")]%string
       (["unit"], ["count"])%string).2 /\
  (forall key,
      key ∈ (labels.addLabels [("region", "us-west1"); ("app", "frontend")]%string
               (["unit"], ["count"])%string).1
      <-> key ∈ ["unit"%string] \/ key ∈ ["region"; "app"]%string).
Proof.
  exact (addLabels_keeps_shape [("region", "us-west1"); ("app", "frontend")]%string
           (["unit"], ["count"])%string (unit_wellFormed "count")).
Defined.

(** X15.  The first source wins: after a label source is appended to a
    label set with parallel keys and values, a key reads the value it
    had before, and a key that was absent reads the value of its first
    binding in the source. *)
Theorem addLabels_first_source_wins (m : list (string * string)) (ls : labels.labelSet)
    (key : string) :
  length ls.1 = length ls.2 ->
  labels.labelValue (labels.addLabels m ls) key
  = orElse (labels.labelValue ls key) (labels.labelValue (asLabelSet m) key).
Proof. apply labelValue_addLabels. Qed.

Lemma addLabels_first_source_wins_witness :
  labels.labelValue
    (labels.addLabels [("region", "us-east1"); ("project_id", "test-project")]%string
       (["unit"; "region"], ["count"; "us-west1"])%string) "region"
  = orElse (labels.labelValue (["unit"; "region"], ["count"; "us-west1"])%string "region")
      (labels.labelValue
         (asLabelSet [("region", "us-east1"); ("project_id", "test-project")]%string)
         "region").
Proof.
  apply (addLabels_first_source_wins
           [("region", "us-east1"); ("project_id", "test-project")]%string
           (["unit"; "region"], ["count"; "us-west1"])%string "region").
  reflexivity.
Defined.

Section ProcessLabels.
Variable jsonUnmarshal : string -> option labels.json.

Lemma processLabels_sources (enableSystemLabels userLabelsOverride : bool) (unitLabel : string)
    (metricLabels resourceLabels userLabels : list (string * string))
    (systemLabelsJSON : string) :
  labels.processLabels jsonUnmarshal enableSystemLabels userLabelsOverride unitLabel
    metricLabels resourceLabels userLabels systemLabelsJSON
  = if userLabelsOverride
    then labels.addLabels (systemSource jsonUnmarshal enableSystemLabels systemLabelsJSON)
           (labels.addLabels userLabels (baseLabels unitLabel metricLabels resourceLabels))
    else labels.addLabels userLabels
           (labels.addLabels (systemSource jsonUnmarshal enableSystemLabels systemLabelsJSON)
              (baseLabels unitLabel metricLabels resourceLabels)).
Proof.
  unfold labels.processLabels, labels.addSystemLabels, systemSource, baseLabels.
  destruct userLabelsOverride, enableSystemLabels; reflexivity.
Qed.

Lemma baseLabels_shape (unitLabel : string) (metricLabels resourceLabels : list (string * string)) :
  wellFormed (baseLabels unitLabel metricLabels resourceLabels) /\
  ["unit"%string] `prefix_of` (baseLabels unitLabel metricLabels resourceLabels).1 /\
  [unitLabel] `prefix_of` (baseLabels unitLabel metricLabels resourceLabels).2.
Proof.
  unfold baseLabels.
  destruct (addLabels_wellFormed metricLabels _ (unit_wellFormed unitLabel))
    as (Hwf1 & Hk1 & Hv1 & _).
  destruct (addLabels_wellFormed resourceLabels _ Hwf1) as (Hwf2 & Hk2 & Hv2 & _).
  split; [exact Hwf2|]. split; etrans; eassumption.
Qed.

End ProcessLabels.

(** X16.  The assembled label set is always in shape: whatever the
    sources, the payload, the decoder and the two switches, the result of
    the label processing has as many values as keys, no key twice, and
    the unit label first. *)
Theorem processLabels_shape
    (jsonUnmarshal : string -> option labels.json)
    (enableSystemLabels userLabelsOverride : bool) (unitLabel : string)
    (metricLabels resourceLabels userLabels : list (string * string))
    (systemLabelsJSON : string) :
  wellFormed (labels.processLabels jsonUnmarshal enableSystemLabels userLabelsOverride
                unitLabel metricLabels resourceLabels userLabels systemLabelsJSON) /\
  (labels.processLabels jsonUnmarshal enableSystemLabels userLabelsOverride
     unitLabel metricLabels resourceLabels userLabels systemLabelsJSON).1 !! 0%nat
  = Some "unit"%string /\
  (labels.processLabels jsonUnmarshal enableSystemLabels userLabelsOverride
     unitLabel metricLabels resourceLabels userLabels systemLabelsJSON).2 !! 0%nat
  = Some unitLabel.
Proof.
  rewrite processLabels_sources.
  destruct (baseLabels_shape unitLabel metricLabels resourceLabels) as (Hwf & Hk & Hv).
  assert (forall m1 m2,
             wellFormed (labels.addLabels m2
                           (labels.addLabels m1
                              (baseLabels unitLabel metricLabels resourceLabels))) /\
             (labels.addLabels m2
                (labels.addLabels m1
                   (baseLabels unitLabel metricLabels resourceLabels))).1 !! 0%nat
             = Some "unit"%string /\
             (labels.addLabels m2
                (labels.addLabels m1
                   (baseLabels unitLabel metricLabels resourceLabels))).2 !! 0%nat
             = Some unitLabel) as Hchain.
  { intros m1 m2.
    destruct (addLabels_wellFormed m1 _ Hwf) as (Hwf1 & Hk1 & Hv1 & _).
    destruct (addLabels_wellFormed m2 _ Hwf1) as (Hwf2 & Hk2 & Hv2 & _).
    split; [exact Hwf2|]. split.
    - apply (prefix_lookup_Some ["unit"%string]); [reflexivity|].
      etrans; [exact Hk|]. etrans; eassumption.
    - apply (prefix_lookup_Some [unitLabel]); [reflexivity|].
      etrans; [exact Hv|]. etrans; eassumption. }
  destruct userLabelsOverride; apply Hchain.
Qed.

(** X17.  What a key reads after the label processing: the value given
    by the unit, metric and resource labels if they bind it; otherwise,
    with override on, the user's value if there is one and else the
    system's, and with override off the system's if there is one and else
    the user's (the system payload counting only when system labels are
    enabled).  So the override switch changes the value of a key only if
    the user mapping and the system payload both bind it and no earlier
    source does. *)
Theorem processLabels_precedence
    (jsonUnmarshal : string -> option labels.json)
    (enableSystemLabels userLabelsOverride : bool) (unitLabel : string)
    (metricLabels resourceLabels userLabels : list (string * string))
    (systemLabelsJSON key : string) :
  labels.labelValue
    (labels.processLabels jsonUnmarshal enableSystemLabels userLabelsOverride unitLabel
       metricLabels resourceLabels userLabels systemLabelsJSON) key
  = orElse (labels.labelValue (baseLabels unitLabel metricLabels resourceLabels) key)
      (if userLabelsOverride
       then orElse (labels.labelValue (asLabelSet userLabels) key)
              (labels.labelValue
                 (asLabelSet (systemSource jsonUnmarshal enableSystemLabels systemLabelsJSON))
                 key)
       else orElse (labels.labelValue
                      (asLabelSet
                         (systemSource jsonUnmarshal enableSystemLabels systemLabelsJSON))
                      key)
              (labels.labelValue (asLabelSet userLabels) key)) /\
  (labels.labelValue (baseLabels unitLabel metricLabels resourceLabels) key <> None \/
   labels.labelValue (asLabelSet userLabels) key = None \/
   labels.labelValue
     (asLabelSet (systemSource jsonUnmarshal enableSystemLabels systemLabelsJSON)) key = None ->
   labels.labelValue
     (labels.processLabels jsonUnmarshal enableSystemLabels true unitLabel
        metricLabels resourceLabels userLabels systemLabelsJSON) key
   = labels.labelValue
       (labels.processLabels jsonUnmarshal enableSystemLabels false unitLabel
          metricLabels resourceLabels userLabels systemLabelsJSON) key).
Proof.
  destruct (baseLabels_shape unitLabel metricLabels resourceLabels) as ([Hlen _] & _).
  assert (forall m1 m2,
             labels.labelValue
               (labels.addLabels m2
                  (labels.addLabels m1 (baseLabels unitLabel metricLabels resourceLabels)))
               key
             = orElse (labels.labelValue (baseLabels unitLabel metricLabels resourceLabels) key)
                 (orElse (labels.labelValue (asLabelSet m1) key)
                    (labels.labelValue (asLabelSet m2) key))) as Hchain.
  { intros m1 m2.
    rewrite labelValue_addLabels by (apply addLabels_lengths, Hlen).
    rewrite labelValue_addLabels by exact Hlen. apply orElse_assoc. }
  split.
  - rewrite processLabels_sources. destruct userLabelsOverride; apply Hchain.
  - intros Hcase. rewrite !processLabels_sources, !Hchain.
    set (fromBase := labels.labelValue (baseLabels unitLabel metricLabels resourceLabels) key)
      in *.
    set (fromUser := labels.labelValue (asLabelSet userLabels) key) in *.
    set (fromSystem := labels.labelValue (asLabelSet (systemSource _ _ _)) key) in *.
    destruct fromBase; [reflexivity|].
    destruct Hcase as [H|[H|H]]; [congruence| |]; rewrite H.
    + destruct fromSystem; reflexivity.
    + destruct fromUser; reflexivity.
Qed.

Lemma processLabels_precedence_witness :
  labels.labelValue
    (labels.processLabels labels.jsonDecode true true "count"
       [("region", "us-west1"); ("app", "frontend")]%string
       [("region", "us-east1"); ("project_id", "test-project")]%string
       [("app", "backend"); ("version", "v1.2.3")]%string conflictPayload) "system_only"
  = labels.labelValue
      (labels.processLabels labels.jsonDecode true false "count"
         [("region", "us-west1"); ("app", "frontend")]%string
         [("region", "us-east1"); ("project_id", "test-project")]%string
         [("app", "backend"); ("version", "v1.2.3")]%string conflictPayload) "system_only".
Proof.
  apply (proj2 (processLabels_precedence labels.jsonDecode true true "count"
                  [("region", "us-west1"); ("app", "frontend")]%string
                  [("region", "us-east1"); ("project_id", "test-project")]%string
                  [("app", "backend"); ("version", "v1.2.3")]%string
                  conflictPayload "system_only")).
  right. left. reflexivity.
Defined.

Lemma addOrOverrideLabels_absent (ls : labels.labelSet) (key value : string) (override : bool) :
  labels.findKeyIndex ls.1 key = None ->
  addOrOverrideLabels ls key value override = labels.appendIfAbsent ls (key, value).
Proof.
  intros Habs. unfold addOrOverrideLabels, labels.appendIfAbsent, labels.keyExists. cbn.
  rewrite Habs. reflexivity.
Qed.

(** X18.  [addOrOverrideLabels] on a label set in shape: the set stays in
    shape; the key then reads the new value if [override] is set or the
    key was absent, and the value it had otherwise; every other key reads
    what it read before; a key that was present leaves the keys as they
    were; and without [override] the call is the append-if-absent step of
    the label loops. *)
Theorem addOrOverrideLabels_effect (ls : labels.labelSet) (key value : string)
    (override : bool) :
  wellFormed ls ->
  wellFormed (addOrOverrideLabels ls key value override) /\
  labels.labelValue (addOrOverrideLabels ls key value override) key
  = (if override then Some value else orElse (labels.labelValue ls key) (Some value)) /\
  (forall other, other <> key ->
     labels.labelValue (addOrOverrideLabels ls key value override) other
     = labels.labelValue ls other) /\
  (key ∈ ls.1 -> (addOrOverrideLabels ls key value override).1 = ls.1) /\
  addOrOverrideLabels ls key value false = labels.appendIfAbsent ls (key, value).
Proof.
  intros Hwf. pose proof Hwf as [Hlen Hnd].
  destruct (labels.findKeyIndex ls.1 key) as [i|] eqn:E.
  - pose proof (findKeyIndex_bound _ _ _ E) as Hi.
    pose proof (findKeyIndex_first _ _ _ E) as [Hat _].
    assert (labels.keyExists ls.1 key = true) as Hex.
    { unfold labels.keyExists. rewrite E. reflexivity. }
    assert (labels.labelValue ls key = ls.2 !! i) as Hval.
    { unfold labels.labelValue. rewrite E. reflexivity. }
    split; [|split; [|split; [|split]]].
    + unfold addOrOverrideLabels. rewrite E. destruct override; [|exact Hwf].
      split; cbn; [rewrite length_insert; exact Hlen|exact Hnd].
    + unfold addOrOverrideLabels. rewrite E. destruct override.
      * unfold labels.labelValue. cbn. rewrite E. cbn.
        apply list_lookup_insert_eq. lia.
      * destruct (labelValue_is_Some ls key Hlen Hex) as [v ->]. reflexivity.
    + intros other Hne. unfold addOrOverrideLabels. rewrite E.
      destruct override; [|reflexivity].
      unfold labels.labelValue. cbn.
      destruct (labels.findKeyIndex ls.1 other) as [j|] eqn:Ej; [cbn|reflexivity].
      apply list_lookup_insert_ne. intros ->.
      apply findKeyIndex_first in Ej as [Hat' _]. congruence.
    + intros _. unfold addOrOverrideLabels. rewrite E. destruct override; reflexivity.
    + unfold addOrOverrideLabels, labels.appendIfAbsent. cbn. rewrite E, Hex. reflexivity.
  - rewrite !(addOrOverrideLabels_absent ls key value _ E).
    assert (labels.keyExists ls.1 key = false) as Hex.
    { unfold labels.keyExists. rewrite E. reflexivity. }
    destruct (appendIfAbsent_wellFormed ls (key, value) Hwf) as (Hwf' & _).
    split; [exact Hwf'|]. split; [|split; [|split]].
    + rewrite (labelValue_appendIfAbsent ls (key, value) key Hlen). cbn.
      rewrite String.eqb_refl, (labelValue_absent ls key Hex).
      destruct override; reflexivity.
    + intros other Hne.
      rewrite (labelValue_appendIfAbsent ls (key, value) other Hlen). cbn.
      assert (String.eqb key other = false) as -> by (apply String.eqb_neq; congruence).
      destruct (labels.labelValue ls other); reflexivity.
    + intros Hin. apply keyExists_false in Hex. contradiction.
    + reflexivity.
Qed.

Lemma addOrOverrideLabels_effect_witness :
  wellFormed (addOrOverrideLabels (["existing"; "key2"], ["original_value"; "value2"])%string
                "existing" "new_value" true) /\
  labels.labelValue
    (addOrOverrideLabels (["existing"; "key2"], ["original_value"; "value2"])%string
       "existing" "new_value" true) "existing"
  = Some "new_value"%string.
Proof.
  destruct (addOrOverrideLabels_effect
              (["existing"; "key2"], ["original_value"; "value2"])%string
              "existing" "new_value" true) as (Hwf & Hval & _).
  - split; [reflexivity|]. cbn. distinct_keys.
  - split; [exact Hwf|exact Hval].
Defined.
